(** * preventScrollBugsIfNeeded: the iOS touch-scroll guard

    A shallow embedding of [src/preventScrollBugsIfNeeded.ts]: the guard that
    runs at [touchstart], the two listeners it leaves on the document body,
    and [hideKeyboradIfNeeded].

    The browser objects the code touches are modelled as explicit state:
    - the DOM nodes it reads and writes ([elements]), addressed by tree
      position so that the parent chain of a node is finite by construction;
    - [document.body], [document.activeElement];
    - the event-listener list of the body;
    - an exception outcome for property reads on [null] / [undefined].

    Lengths, offsets and coordinates are integers ([Z]): the code only
    compares them and subtracts one. *)

From Stdlib Require Import ZArith Ascii String.
From stdpp Require Import gmap strings list.

Local Open Scope Z_scope.
Local Open Scope string_scope.

(** ** Strings *)

(** [String.prototype.toLowerCase], on the ASCII range: the three words the
    code compares against ([input], [text], [password]) are ASCII, and no
    other character lower-cases to one of their letters. *)
Definition lowerAscii (c : ascii) : ascii :=
  let n := nat_of_ascii c in
  if ((65 <=? n)%nat && (n <=? 90)%nat)%bool then ascii_of_nat (n + 32) else c.

Fixpoint toLowerCase (s : string) : string :=
  match s with
  | EmptyString => EmptyString
  | String c rest => String (lowerAscii c) (toLowerCase rest)
  end.

(** ** The DOM *)

(** A node is named by its position in the tree, innermost step first: the
    parent of [i :: p] is [p], and [[]] is the root, whose parent is [null]. *)
Definition node : Type := list nat.

Definition parentNode (n : node) : option node :=
  match n with
  | [] => None
  | _ :: p => Some p
  end.

(** What the code reads from, and writes to, an [Element]. *)
Record Element := {
  classList : list string;
  scrollTop : Z;
  scrollLeft : Z;
  scrollHeight : Z;
  clientHeight : Z;
  scrollWidth : Z;
  clientWidth : Z;
  isHTMLElement : bool;          (* [instanceof HTMLElement] *)
  tagName : string;
  attributes : gmap string string
}.

Definition contains (cl : list string) (token : string) : bool :=
  bool_decide (token ∈ cl).

Definition getAttribute (e : Element) (name : string) : option string :=
  attributes e !! name.

Definition set_scrollTop (v : Z) (e : Element) : Element :=
  {| classList := classList e; scrollTop := v; scrollLeft := scrollLeft e;
     scrollHeight := scrollHeight e; clientHeight := clientHeight e;
     scrollWidth := scrollWidth e; clientWidth := clientWidth e;
     isHTMLElement := isHTMLElement e; tagName := tagName e;
     attributes := attributes e |}.

Definition set_scrollLeft (v : Z) (e : Element) : Element :=
  {| classList := classList e; scrollTop := scrollTop e; scrollLeft := v;
     scrollHeight := scrollHeight e; clientHeight := clientHeight e;
     scrollWidth := scrollWidth e; clientWidth := clientWidth e;
     isHTMLElement := isHTMLElement e; tagName := tagName e;
     attributes := attributes e |}.

(** ** Events *)

Record Touch := { clientY : Z }.

(** A [TouchEvent], with the flags of the DOM standard the code can reach:
    [cancelable], the canceled flag ([defaultPrevented]), the stop
    propagation flag and the in-passive-listener flag, which the browser
    sets while it runs a passive listener. *)
Record TouchEvent := {
  target : option node;
  touches : list Touch;
  cancelable : bool;
  inPassiveListener : bool;
  defaultPrevented : bool;
  propagationStopped : bool
}.

(** [event.preventDefault()]: the canceled flag is set only for a cancelable
    event outside a passive listener; otherwise the call does nothing. *)
Definition preventDefault (ev : TouchEvent) : TouchEvent :=
  if cancelable ev && negb (inPassiveListener ev) then
    {| target := target ev; touches := touches ev;
       cancelable := cancelable ev; inPassiveListener := inPassiveListener ev;
       defaultPrevented := true; propagationStopped := propagationStopped ev |}
  else ev.

Definition stopPropagation (ev : TouchEvent) : TouchEvent :=
  {| target := target ev; touches := touches ev;
     cancelable := cancelable ev; inPassiveListener := inPassiveListener ev;
     defaultPrevented := defaultPrevented ev; propagationStopped := true |}.

Definition set_inPassiveListener (flag : bool) (ev : TouchEvent) : TouchEvent :=
  {| target := target ev; touches := touches ev;
     cancelable := cancelable ev; inPassiveListener := flag;
     defaultPrevented := defaultPrevented ev;
     propagationStopped := propagationStopped ev |}.

(** ** Closures and listeners *)

(** The variables of one invocation that its two handlers close over. *)
Record Gesture := {
  startY : Z;
  scrollStartedFromTop : bool;
  hasVerticalScroll : bool;
  hasHorizontalScroll : bool;
  alwaysPreventPullToRefresh : bool
}.

Inductive EventType := touchmove | touchend.
Inductive FunctionName := FnTouchMove | FnTouchEnd.

(** A function object: every invocation of the guard creates a fresh pair,
    told apart by [fnId]. *)
Record Callback := {
  fnName : FunctionName;
  fnId : nat;
  fnEnv : Gesture
}.

Record Listener := {
  l_type : EventType;
  l_callback : Callback;
  l_capture : bool
}.

#[global] Instance EventType_eq_dec : EqDecision EventType.
Proof. solve_decision. Defined.
#[global] Instance FunctionName_eq_dec : EqDecision FunctionName.
Proof. solve_decision. Defined.

(** Identity of function objects. *)
Definition same_function (a b : Callback) : bool :=
  bool_decide (fnName a = fnName b) && bool_decide (fnId a = fnId b).

(** The listener key of the DOM standard: type, callback and capture flag. *)
Definition same_listener (a b : Listener) : bool :=
  bool_decide (l_type a = l_type b)
  && same_function (l_callback a) (l_callback b)
  && bool_decide (l_capture a = l_capture b).

(** ** The state *)

Record Document := {
  elements : gmap node Element;   (* nodes with the Element interface *)
  body : node;
  activeElement : option node;
  bodyListeners : list Listener;  (* event listener list of [document.body] *)
  functionsCreated : nat;
  (* instrumentation: calls observed, not state of the program *)
  blurred : list node;            (* receivers of [blur()], latest first *)
  dismisserCalls : nat            (* invocations of [hideKeyboradIfNeeded] *)
}.

Definition with_elements (f : gmap node Element → gmap node Element)
    (d : Document) : Document :=
  {| elements := f (elements d); body := body d;
     activeElement := activeElement d; bodyListeners := bodyListeners d;
     functionsCreated := functionsCreated d;
     blurred := blurred d; dismisserCalls := dismisserCalls d |}.

Definition with_listeners (f : list Listener → list Listener)
    (d : Document) : Document :=
  {| elements := elements d; body := body d;
     activeElement := activeElement d; bodyListeners := f (bodyListeners d);
     functionsCreated := functionsCreated d;
     blurred := blurred d; dismisserCalls := dismisserCalls d |}.

(** ** Computations: state and exceptions *)

Inductive Completion (A : Type) :=
  | Normal (a : A)
  | TypeError.
Arguments Normal {A} a.
Arguments TypeError {A}.

Definition M (A : Type) : Type := Document → Completion A * Document.

#[global] Instance M_ret : MRet M := λ A a d, (Normal a, d).
#[global] Instance M_bind : MBind M := λ A B k m d,
  match m d with
  | (Normal a, d') => k a d'
  | (TypeError, d') => (TypeError, d')
  end.

Definition throw {A} : M A := λ d, (TypeError, d).
Definition get : M Document := λ d, (Normal d, d).
Definition modify (f : Document → Document) : M unit := λ d, (Normal tt, f d).

(** ** [hideKeyboradIfNeeded] *)

(** [element.blur()]: focus moves back to the body. *)
Definition blur (n : node) : M unit :=
  modify (λ d,
    {| elements := elements d; body := body d;
       activeElement := Some (body d); bodyListeners := bodyListeners d;
       functionsCreated := functionsCreated d;
       blurred := n :: blurred d; dismisserCalls := dismisserCalls d |}).

(** Instrumentation only: one more call of the dismisser. *)
Definition count_dismisser_call : M unit :=
  modify (λ d,
    {| elements := elements d; body := body d;
       activeElement := activeElement d; bodyListeners := bodyListeners d;
       functionsCreated := functionsCreated d;
       blurred := blurred d; dismisserCalls := S (dismisserCalls d) |}).

Definition hideKeyboradIfNeeded : M unit :=
  _ ← count_dismisser_call;
  d ← get;
  match activeElement d with
  | None => mret tt
  | Some n =>
    match elements d !! n with
    | None => mret tt
    | Some e =>
      if isHTMLElement e then
        let elementTag := toLowerCase (tagName e) in
        let elementType := toLowerCase (default "" (getAttribute e "type")) in
        if bool_decide (elementTag = "input")
           && (bool_decide (elementType = "text")
               || bool_decide (elementType = "password"))
        then blur n
        else mret tt
      else mret tt
    end
  end.

(** ** Listener registration on the body *)

(** An event listener is appended unless the list already holds one with the
    same type, callback and capture flag. *)
Definition add_listener (l : Listener) (ls : list Listener) : list Listener :=
  if existsb (same_listener l) ls then ls else (ls ++ [l])%list.

Definition addEventListener (ty : EventType) (cb : Callback) (capture : bool)
    : M unit :=
  let l := {| l_type := ty; l_callback := cb; l_capture := capture |} in
  modify (with_listeners (add_listener l)).

(** The first listener with the same type, callback and capture flag is
    removed, if there is one. *)
Fixpoint remove_listener (l : Listener) (ls : list Listener) : list Listener :=
  match ls with
  | [] => []
  | x :: rest => if same_listener l x then rest else x :: remove_listener l rest
  end.

(** The capture flag defaults to [false] when the third argument is left out;
    the call sites pass it explicitly here. *)
Definition removeEventListener (ty : EventType) (cb : Callback) (capture : bool)
    : M unit :=
  let l := {| l_type := ty; l_callback := cb; l_capture := capture |} in
  modify (with_listeners (remove_listener l)).

(** ** The handlers *)

(** [event.touches[0].clientY]: reading [clientY] of [undefined] throws. *)
Definition firstTouchY (event : TouchEvent) : M Z :=
  match touches event with
  | [] => throw
  | t :: _ => mret (clientY t)
  end.

(** The three statements both suppressing branches share. *)
Definition suppress (event : TouchEvent) : M TouchEvent :=
  let event := preventDefault event in
  let event := stopPropagation event in
  _ ← hideKeyboradIfNeeded;
  mret event.

(** 3.1: body of [if (hasVerticalScroll && scrollStartedFromTop)]. *)
Definition topStartBranch (g : Gesture) (event : TouchEvent) : M TouchEvent :=
  moveY ← firstTouchY event;
  if bool_decide (moveY > startY g) then suppress event else mret event.

(** 3.2: the statement [if (alwaysPreventPullToRefresh) ...]. *)
Definition alwaysPreventBranch (g : Gesture) (event : TouchEvent)
    : M TouchEvent :=
  if alwaysPreventPullToRefresh g then
    if negb (hasVerticalScroll g) && negb (hasHorizontalScroll g)
    then suppress event
    else mret event
  else mret event.

Definition onTouchMove (g : Gesture) (event : TouchEvent) : M TouchEvent :=
  if hasVerticalScroll g && scrollStartedFromTop g
  then topStartBranch g event
  else alwaysPreventBranch g event.

Definition moveCallback (id : nat) (g : Gesture) : Callback :=
  {| fnName := FnTouchMove; fnId := id; fnEnv := g |}.
Definition endCallback (id : nat) (g : Gesture) : Callback :=
  {| fnName := FnTouchEnd; fnId := id; fnEnv := g |}.

Definition onTouchEnd (id : nat) (g : Gesture) : M unit :=
  _ ← removeEventListener touchmove (moveCallback id g) false;
  removeEventListener touchend (endCallback id g) false.

(** ** The guard *)

(** Step 1, the [while] loop, from a non-null [target]. The result is the
    value of [target] after the loop and the two flags. *)
Fixpoint findScrollable (t : node) : M (option node * bool * bool) :=
  d ← get;
  if bool_decide (t = body d) then mret (Some t, false, false)
  else
    match elements d !! t with
    | None => throw                 (* [classList] is [undefined] *)
    | Some e =>
      if contains (classList e) "scrollable" then
        mret (Some t,
              bool_decide (scrollHeight e > clientHeight e),
              bool_decide (scrollWidth e > clientWidth e))
      else
        match t with                (* [target = target.parentNode] *)
        | [] => mret (None, false, false)
        | _ :: p => findScrollable p
        end
    end.

Definition locate (t : option node) : M (option node * bool * bool) :=
  match t with
  | None => mret (None, false, false)
  | Some n => findScrollable n
  end.

Definition write_scrollTop (n : node) (v : Z) : M unit :=
  modify (with_elements (alter (set_scrollTop v) n)).
Definition write_scrollLeft (n : node) (v : Z) : M unit :=
  modify (with_elements (alter (set_scrollLeft v) n)).

(** Step 2. Returns [startY] and [scrollStartedFromTop]. A property read on
    [null] throws; on a node without the property it gives [undefined], which
    equals no number. *)
Definition edgeFix (event : TouchEvent) (t : option node)
    (hasVerticalScroll hasHorizontalScroll : bool) : M (Z * bool) :=
  if hasVerticalScroll then
    match t with
    | None => throw
    | Some n =>
      d ← get;
      match elements d !! n with
      | None => mret (0, false)
      | Some e =>
        if bool_decide (scrollTop e = 0) then
          y ← firstTouchY event;
          _ ← write_scrollTop n 1;
          mret (y, true)
        else if bool_decide (scrollTop e = scrollHeight e - clientHeight e) then
          _ ← write_scrollTop n (scrollHeight e - clientHeight e - 1);
          mret (0, false)
        else mret (0, false)
      end
    end
  else if hasHorizontalScroll then
    match t with
    | None => throw
    | Some n =>
      d ← get;
      match elements d !! n with
      | None => mret (0, false)
      | Some e =>
        if bool_decide (scrollLeft e = 0) then
          _ ← write_scrollLeft n 1;
          mret (0, false)
        else if bool_decide (scrollLeft e = scrollWidth e - clientWidth e) then
          _ ← write_scrollLeft n (scrollWidth e - clientWidth e - 1);
          mret (0, false)
        else mret (0, false)
      end
    end
  else mret (0, false).

Definition newFunctions : M nat := λ d,
  (Normal (functionsCreated d),
   {| elements := elements d; body := body d;
      activeElement := activeElement d; bodyListeners := bodyListeners d;
      functionsCreated := S (functionsCreated d);
      blurred := blurred d; dismisserCalls := dismisserCalls d |}).

(** The guard returns nothing; the model hands back the environment its two
    handlers close over. Their identity is the value of [functionsCreated]
    when the guard was entered. *)
Definition preventScrollBugsIfNeeded (event : TouchEvent)
    (alwaysPreventPullToRefresh : bool) : M Gesture :=
  '(t, hasVerticalScroll, hasHorizontalScroll) ← locate (target event);
  '(startY, scrollStartedFromTop) ←
    edgeFix event t hasVerticalScroll hasHorizontalScroll;
  let g := {| startY := startY;
              scrollStartedFromTop := scrollStartedFromTop;
              hasVerticalScroll := hasVerticalScroll;
              hasHorizontalScroll := hasHorizontalScroll;
              alwaysPreventPullToRefresh := alwaysPreventPullToRefresh |} in
  id ← newFunctions;
  _ ← addEventListener touchmove (moveCallback id g) false;
  _ ← addEventListener touchend (endCallback id g) true;
  mret g.

(** The touchmove events of one gesture, in order. *)
Fixpoint handleMoves (g : Gesture) (events : list TouchEvent)
    : M (list TouchEvent) :=
  match events with
  | [] => mret []
  | event :: rest =>
    event' ← onTouchMove g event;
    rest' ← handleMoves g rest;
    mret (event' :: rest')
  end.

(** ** Vocabulary of the specification *)

(** The [k]-th ancestor of [t]; [ancestor 0 t] is [t] itself. *)
Definition ancestor (k : nat) (t : node) : node := drop k t.

(** An element whose class list lacks the marker. *)
Definition plain_element (d : Document) (n : node) : Prop :=
  ∃ e, elements d !! n = Some e ∧ "scrollable" ∉ classList e.

Definition carries_marker (d : Document) (n : node) : Prop :=
  ∃ e, elements d !! n = Some e ∧ "scrollable" ∈ classList e.

(** The body is not among the first [k + 1] nodes of the chain from [t]. *)
Definition below_body (d : Document) (t : node) (k : nat) : Prop :=
  ∀ j, (j ≤ k)%nat → ancestor j t ≠ body d.

(** The [k]-th ancestor of [t] is the element [e], it carries the marker and
    lies below the body, and the nodes between [t] and it are elements
    without the marker: [e] is the nearest marked ancestor of [t]. *)
Definition nearest_marked (d : Document) (t : node) (k : nat) (e : Element)
    : Prop :=
  (k ≤ length t)%nat ∧ below_body d t k ∧
  (∀ j, (j < k)%nat → plain_element d (ancestor j t)) ∧
  elements d !! ancestor k t = Some e ∧ "scrollable" ∈ classList e.

(** No ancestor of [t] below the body carries the marker. *)
Definition no_marked_ancestor (d : Document) (t : node) : Prop :=
  ∀ k, (k ≤ length t)%nat → below_body d t k → ¬ carries_marker d (ancestor k t).

(** Every ancestor of [t] below the body has the Element interface. *)
Definition elements_below_body (d : Document) (t : node) : Prop :=
  ∀ k, (k ≤ length t)%nat → below_body d t k →
       is_Some (elements d !! ancestor k t).

Definition equal_ignoring_case (a b : string) : Prop :=
  toLowerCase a = toLowerCase b.

(** The focused element [n] is an HTML [input] of type text or password. *)
Definition text_input_focused (d : Document) (n : node) : Prop :=
  activeElement d = Some n ∧
  ∃ e, elements d !! n = Some e ∧ isHTMLElement e = true ∧
       equal_ignoring_case (tagName e) "input" ∧
       (equal_ignoring_case (default "" (getAttribute e "type")) "text" ∨
        equal_ignoring_case (default "" (getAttribute e "type")) "password").

(** What the dismisser tests, as one boolean. *)
Definition wants_blur (e : Element) : bool :=
  isHTMLElement e
  && bool_decide (toLowerCase (tagName e) = "input")
  && (bool_decide (toLowerCase (default "" (getAttribute e "type")) = "text")
      || bool_decide
           (toLowerCase (default "" (getAttribute e "type")) = "password")).

(** The document after one call of the dismisser that blurred nothing. *)
Definition dismisser_called (d : Document) : Document :=
  {| elements := elements d; body := body d;
     activeElement := activeElement d; bodyListeners := bodyListeners d;
     functionsCreated := functionsCreated d;
     blurred := blurred d; dismisserCalls := S (dismisserCalls d) |}.

(** The document after one call of the dismisser that blurred [n]. *)
Definition dismisser_blurred (n : node) (d : Document) : Document :=
  {| elements := elements d; body := body d;
     activeElement := Some (body d); bodyListeners := bodyListeners d;
     functionsCreated := functionsCreated d;
     blurred := n :: blurred d; dismisserCalls := S (dismisserCalls d) |}.

(** The listeners one invocation puts on the body, and the document after
    it registered them. *)
Definition moveListener (id : nat) (g : Gesture) : Listener :=
  {| l_type := touchmove; l_callback := moveCallback id g; l_capture := false |}.
Definition endListener (id : nat) (g : Gesture) : Listener :=
  {| l_type := touchend; l_callback := endCallback id g; l_capture := true |}.

Definition registered (g : Gesture) (d : Document) : Document :=
  {| elements := elements d; body := body d;
     activeElement := activeElement d;
     bodyListeners :=
       add_listener (endListener (functionsCreated d) g)
         (add_listener (moveListener (functionsCreated d) g) (bodyListeners d));
     functionsCreated := S (functionsCreated d);
     blurred := blurred d; dismisserCalls := dismisserCalls d |}.

(** The document after a write of [v] to [scrollTop] / [scrollLeft] of the
    element [e] stored at [n]. *)
Definition scrolledTop (n : node) (e : Element) (v : Z) (d : Document)
    : Document :=
  with_elements (λ els, <[n := set_scrollTop v e]> els) d.
Definition scrolledLeft (n : node) (e : Element) (v : Z) (d : Document)
    : Document :=
  with_elements (λ els, <[n := set_scrollLeft v e]> els) d.

(** Every listener on the body was created by an earlier invocation. *)
Definition listeners_known (d : Document) : Prop :=
  ∀ l, l ∈ bodyListeners d → (fnId (l_callback l) < functionsCreated d)%nat.

(** A handler run made the suppressing calls on [event]: [preventDefault()]
    and [stopPropagation()] on the event, and the dismisser. *)
Definition suppressed (run : M TouchEvent) (event : TouchEvent)
    (d : Document) : Prop :=
  run d = (Normal (stopPropagation (preventDefault event)),
           (hideKeyboradIfNeeded d).2).

(** A handler run did nothing at all. *)
Definition untouched (run : M TouchEvent) (event : TouchEvent)
    (d : Document) : Prop :=
  run d = (Normal event, d).

(** ** The ways the ancestor walk can end *)

(** The first [k] nodes of the chain from [t] are elements without the
    marker, none of them the body: the loop runs past all of them. *)
Definition plain_below (d : Document) (t : node) (k : nat) : Prop :=
  ∀ j, (j < k)%nat → ancestor j t ≠ body d ∧ plain_element d (ancestor j t).

(** The walk reaches the body after [k] steps. *)
Definition stops_at_body (d : Document) (t : node) (k : nat) : Prop :=
  (k ≤ length t)%nat ∧ plain_below d t k ∧ ancestor k t = body d.

(** The walk passes the root: [target] ends as [null]. *)
Definition runs_off_root (d : Document) (t : node) : Prop :=
  plain_below d t (S (length t)).

(** The walk reaches, after [k] steps, a node without a class list. *)
Definition hits_non_element (d : Document) (t : node) (k : nat) : Prop :=
  (k ≤ length t)%nat ∧ plain_below d t k ∧
  ancestor k t ≠ body d ∧ elements d !! ancestor k t = None.

(** ** The browser's side *)

(** The default passive value of the DOM standard for a listener on the
    body: a [touchmove] listener is passive when its registration leaves the
    [passive] option out, a [touchend] listener is not. Both registrations
    of the source leave it out (the [true] of the second is the capture
    flag). *)
Definition defaultPassive (ty : EventType) : bool :=
  match ty with
  | touchmove => true
  | touchend => false
  end.

(** The function behind a callback, applied to an event. *)
Definition call (cb : Callback) (event : TouchEvent) : M TouchEvent :=
  match fnName cb with
  | FnTouchMove => onTouchMove (fnEnv cb) event
  | FnTouchEnd => _ ← onTouchEnd (fnId cb) (fnEnv cb); mret event
  end.

(** The browser runs a listener of the body on an event: it sets the
    in-passive-listener flag for a passive listener, calls the callback,
    reports an exception that leaves it instead of passing it on, and unsets
    the flag. The result is the event afterwards and the state. *)
Definition invoke (l : Listener) (event : TouchEvent) (d : Document)
    : TouchEvent * Document :=
  let event :=
    if defaultPassive (l_type l) then set_inPassiveListener true event
    else event in
  match call (l_callback l) event d with
  | (Normal event', d') => (set_inPassiveListener false event', d')
  | (TypeError, d') => (set_inPassiveListener false event, d')
  end.

(** What can happen to the state, one step at a time: the touchstart
    listener of the page calls the guard; the browser runs the listener that
    is at some position of the body's list, on some event; or the page
    changes otherwise (scrolling, layout, focus) without touching the
    listeners of the body. Which listeners the browser runs, on which events
    and in which order, is left open. *)
Inductive Action :=
  | Touchstart (event : TouchEvent) (always : bool)
  | RunListener (i : nat) (event : TouchEvent)
  | PageChange (els : gmap node Element) (focus : option node).

(** One step; the boolean tells whether a call of the guard completed. *)
Definition act (a : Action) (d : Document) : bool * Document :=
  match a with
  | Touchstart event always =>
    match preventScrollBugsIfNeeded event always d with
    | (Normal _, d') => (true, d')
    | (TypeError, d') => (false, d')
    end
  | RunListener i event =>
    match bodyListeners d !! i with
    | Some l => (false, (invoke l event d).2)
    | None => (false, d)
    end
  | PageChange els focus =>
    (false,
     {| elements := els; body := body d;
        activeElement := focus; bodyListeners := bodyListeners d;
        functionsCreated := functionsCreated d;
        blurred := blurred d; dismisserCalls := dismisserCalls d |})
  end.

(** A schedule of steps; the number counts the completed guard calls. *)
Fixpoint perform (acts : list Action) (d : Document) : nat * Document :=
  match acts with
  | [] => (0%nat, d)
  | a :: rest =>
    let '(completed, d1) := act a d in
    let '(n, d') := perform rest d1 in
    ((if completed then S n else n), d')
  end.

(** The touchend listeners on the body that were registered with capture. *)
Definition captureTouchEnds (d : Document) : list Listener :=
  List.filter (λ l, bool_decide (l_type l = touchend) && l_capture l)
    (bodyListeners d).

(** ** Sample page *)

Module Sample.

Definition div (cls : list string) (top left : Z) (sh ch sw cw : Z)
    : Element :=
  {| classList := cls; scrollTop := top; scrollLeft := left;
     scrollHeight := sh; clientHeight := ch;
     scrollWidth := sw; clientWidth := cw;
     isHTMLElement := true; tagName := "DIV"; attributes := ∅ |}.

Definition input (type : string) : Element :=
  {| classList := []; scrollTop := 0; scrollLeft := 0;
     scrollHeight := 20; clientHeight := 20;
     scrollWidth := 80; clientWidth := 80;
     isHTMLElement := true; tagName := "INPUT";
     attributes := {[ "type" := type ]} |}.

(** Tree positions. The root [[]] is the document node, not an element. *)
Definition html : node := [0%nat].
Definition bodyNode : node := [0%nat; 0%nat].
Definition outer : node := [0%nat; 0%nat; 0%nat].     (* marked, 800/300 *)
Definition list_ : node := [0; 0; 0; 0]%nat.          (* marked, 500/200 *)
Definition item : node := [0; 0; 0; 0; 0]%nat.        (* inside [list_] *)
Definition strip : node := [1; 0; 0; 0]%nat.          (* marked, wide *)
Definition field : node := [1; 0; 0]%nat.             (* a text input *)
Definition plain : node := [2; 0; 0]%nat.             (* unmarked div *)

Definition page (listTop : Z) : Document :=
  {| elements :=
       <[ html := div [] 0 0 900 900 400 400 ]>
       (<[ bodyNode := div [] 0 0 900 900 400 400 ]>
       (<[ outer := div ["panel"; "scrollable"] 5 0 800 300 400 400 ]>
       (<[ list_ := div ["scrollable"] listTop 0 500 200 400 400 ]>
       (<[ item := div ["row"] 0 0 900 30 900 400 ]>
       (<[ strip := div ["scrollable"] 0 0 100 100 1000 400 ]>
       (<[ field := input "TEXT" ]>
       (<[ plain := div [] 0 0 50 50 400 400 ]> ∅)))))));
     body := bodyNode;
     activeElement := Some field;
     bodyListeners := [];
     functionsCreated := 0;
     blurred := [];
     dismisserCalls := 0 |}.

Definition touchAt (n : node) (ys : list Z) : TouchEvent :=
  {| target := Some n;
     touches := (λ y, {| clientY := y |}) <$> ys;
     cancelable := true; inPassiveListener := false;
     defaultPrevented := false; propagationStopped := false |}.

End Sample.

(** * Properties *)

(** ** Running computations *)

Arguments hideKeyboradIfNeeded : simpl never.

Ltac run :=
  unfold mbind, M_bind, mret, M_ret, get, modify, throw in *; simpl in *.

Lemma bind_normal {A B} (m : M A) (k : A → M B) d a d' :
  m d = (Normal a, d') → (m ≫= k) d = k a d'.
Proof. intros H. unfold mbind, M_bind. by rewrite H. Qed.

Lemma bind_throw {A B} (m : M A) (k : A → M B) d d' :
  m d = (TypeError, d') → (m ≫= k) d = (TypeError, d').
Proof. intros H. unfold mbind, M_bind. by rewrite H. Qed.

(** ** Step 1: the ancestor walk *)

Lemma contains_true cl token : contains cl token = true ↔ token ∈ cl.
Proof. unfold contains. by rewrite bool_decide_eq_true. Qed.

Lemma contains_false cl token : contains cl token = false ↔ token ∉ cl.
Proof. unfold contains. by rewrite bool_decide_eq_false. Qed.

(** The walk reads and never writes. *)
Lemma findScrollable_readonly t d : (findScrollable t d).2 = d.
Proof.
  induction t as [|i p IH]; simpl; run;
    case_bool_decide; simpl; try done;
    destruct (elements d !! _) as [e|]; simpl; try done;
    destruct (contains _ _); simpl; done.
Qed.

Lemma locate_readonly t d : (locate t d).2 = d.
Proof. destruct t; simpl; [apply findScrollable_readonly | done]. Qed.

(** One turn of the [while] loop: the test against the body, the class
    test, then [target = target.parentNode] and the loop test again. *)
Lemma findScrollable_turn t d :
  findScrollable t d =
    if bool_decide (t = body d) then (Normal (Some t, false, false), d)
    else
      match elements d !! t with
      | None => (TypeError, d)
      | Some e =>
        if contains (classList e) "scrollable" then
          (Normal (Some t,
                   bool_decide (scrollHeight e > clientHeight e),
                   bool_decide (scrollWidth e > clientWidth e)), d)
        else locate (parentNode t) d
      end.
Proof.
  destruct t as [|i p]; simpl; run;
    case_bool_decide; try done;
    destruct (elements d !! _) as [e|]; try done;
    by destruct (contains _ _).
Qed.

Lemma ancestor_parent k t p :
  parentNode t = Some p → ancestor (S k) t = ancestor k p.
Proof. destruct t; [done|]. by intros [= ->]. Qed.

Lemma nearest_marked_parent d i p k e :
  nearest_marked d (i :: p) (S k) e → nearest_marked d p k e.
Proof.
  intros (Hlen & Hbody & Hplain & He & Hm). repeat split; try done.
  - simpl in Hlen. lia.
  - intros j Hj. apply (Hbody (S j)). lia.
  - intros j Hj. apply (Hplain (S j)). lia.
Qed.

(** The walk stops at the nearest marked ancestor and takes both flags from
    that element. *)
Lemma findScrollable_nearest k : ∀ t d e,
  nearest_marked d t k e →
  findScrollable t d =
    (Normal (Some (ancestor k t),
             bool_decide (scrollHeight e > clientHeight e),
             bool_decide (scrollWidth e > clientWidth e)), d).
Proof.
  induction k as [|k IH]; intros t d e Hn.
  - destruct Hn as (_ & Hbody & _ & He & Hm).
    specialize (Hbody 0%nat (le_n _)). unfold ancestor in *. simpl in *.
    destruct t; simpl; run;
      (rewrite bool_decide_eq_false_2 by done); rewrite He;
      (rewrite (proj2 (contains_true _ _) Hm)); done.
  - destruct t as [|i p]; [destruct Hn as (Hlen & _); simpl in Hlen; lia|].
    pose proof (nearest_marked_parent _ _ _ _ _ Hn) as Hp.
    destruct Hn as (_ & Hbody & Hplain & _ & _).
    specialize (Hbody 0%nat (Nat.le_0_l _)).
    destruct (Hplain 0%nat (Nat.lt_0_succ _)) as (e0 & He0 & Hno).
    unfold ancestor in *. simpl in *. run.
    rewrite bool_decide_eq_false_2 by done. rewrite He0.
    rewrite (proj2 (contains_false _ _) Hno). by apply IH.
Qed.

(** Without a marked ancestor below the body the walk leaves both flags
    false, whether it ends at the body, at the root, or by an exception. *)
Lemma findScrollable_unmarked t : ∀ d,
  no_marked_ancestor d t →
  match (findScrollable t d).1 with
  | Normal (_, v, h) => v = false ∧ h = false
  | TypeError => True
  end.
Proof.
  induction t as [|i p IH]; intros d Hno; simpl; run.
  - case_bool_decide as Hb; simpl; [done|].
    destruct (elements d !! _) as [e|] eqn:He; simpl; [|done].
    destruct (contains _ _) eqn:Hc; simpl; [|done].
    exfalso. apply (Hno 0%nat); [simpl; lia| |].
    + intros j Hj. replace j with 0%nat by lia. done.
    + exists e. split; [done|]. by apply contains_true.
  - case_bool_decide as Hb; simpl; [done|].
    destruct (elements d !! _) as [e|] eqn:He; simpl; [|done].
    destruct (contains _ _) eqn:Hc; simpl.
    + exfalso. apply (Hno 0%nat); [simpl; lia| |].
      * intros j Hj. replace j with 0%nat by lia. done.
      * exists e. split; [done|]. by apply contains_true.
    + apply IH. intros k Hk Hbelow Hm.
      apply (Hno (S k)); [simpl; lia| |done].
      intros [|j] Hj; [done|]. apply (Hbelow j). lia.
Qed.

(** The walk throws only at a node without the Element interface. *)
Lemma findScrollable_normal t : ∀ d,
  elements_below_body d t → ∃ r, findScrollable t d = (Normal r, d).
Proof.
  induction t as [|i p IH]; intros d Hel; simpl; run.
  - case_bool_decide as Hb; simpl; [by eexists|].
    destruct (Hel 0%nat) as [e He]; [simpl; lia| |].
    { intros j Hj. replace j with 0%nat by lia. done. }
    unfold ancestor in He. simpl in He. rewrite He.
    destruct (contains _ _); by eexists.
  - case_bool_decide as Hb; simpl; [by eexists|].
    destruct (Hel 0%nat) as [e He]; [simpl; lia| |].
    { intros j Hj. replace j with 0%nat by lia. done. }
    unfold ancestor in He. simpl in He. rewrite He.
    destruct (contains _ _); [by eexists|].
    apply IH. intros k Hk Hbelow. apply (Hel (S k)); [simpl; lia|].
    intros [|j] Hj; [done|]. apply (Hbelow j). lia.
Qed.

(** ** The keyboard dismisser *)

Lemma lower_input : toLowerCase "input" = "input".
Proof. reflexivity. Qed.
Lemma lower_text : toLowerCase "text" = "text".
Proof. reflexivity. Qed.
Lemma lower_password : toLowerCase "password" = "password".
Proof. reflexivity. Qed.

Lemma wants_blur_spec d n e :
  activeElement d = Some n → elements d !! n = Some e →
  wants_blur e = true ↔ text_input_focused d n.
Proof.
  intros Ha He. unfold wants_blur, text_input_focused, equal_ignoring_case.
  rewrite lower_input, lower_text, lower_password.
  rewrite !andb_true_iff, orb_true_iff, !bool_decide_eq_true. split.
  - intros [[Hh Ht] Hty]. split; [done|]. by exists e.
  - intros (_ & e' & He' & Hh & Ht & Hty). by simplify_eq.
Qed.

Lemma hideKeyborad_run d :
  hideKeyboradIfNeeded d =
    match activeElement d with
    | Some n =>
      match elements d !! n with
      | Some e => if wants_blur e then (Normal tt, dismisser_blurred n d)
                  else (Normal tt, dismisser_called d)
      | None => (Normal tt, dismisser_called d)
      end
    | None => (Normal tt, dismisser_called d)
    end.
Proof.
  unfold hideKeyboradIfNeeded, wants_blur, count_dismisser_call, blur.
  unfold dismisser_called, dismisser_blurred. run.
  destruct (activeElement d) as [n|]; [|done].
  destruct (elements d !! n) as [e|]; [|done].
  destruct (isHTMLElement e); simpl; [|done].
  destruct (bool_decide (_ = "input")); simpl; [|done].
  destruct (bool_decide (_ = "text")); simpl; [done|].
  destruct (bool_decide (_ = "password")); simpl; done.
Qed.

Lemma hideKeyborad_frame d :
  (hideKeyboradIfNeeded d).1 = Normal tt ∧
  elements (hideKeyboradIfNeeded d).2 = elements d ∧
  bodyListeners (hideKeyboradIfNeeded d).2 = bodyListeners d ∧
  dismisserCalls (hideKeyboradIfNeeded d).2 = S (dismisserCalls d).
Proof.
  rewrite hideKeyborad_run.
  destruct (activeElement d) as [n|]; [|done].
  destruct (elements d !! n) as [e|]; [|done].
  by destruct (wants_blur e).
Qed.

(** C7. The dismisser blurs the focused element exactly when that element
    is an HTML element whose tag is [input] and whose [type] attribute is,
    ignoring case, [text] or [password]. In that case the element receives
    [blur()]; in every other case (nothing focused, a focus that is not an
    HTML element, another tag, another or no [type]) nothing happens beyond
    the call itself. *)
Theorem hideKeyborad_blurs_exactly_text_inputs (d : Document) :
  (∀ n, text_input_focused d n →
        hideKeyboradIfNeeded d = (Normal tt, dismisser_blurred n d)) ∧
  ((∀ n, ¬ text_input_focused d n) →
        hideKeyboradIfNeeded d = (Normal tt, dismisser_called d)) ∧
  ((∃ n, text_input_focused d n) ↔
        blurred (hideKeyboradIfNeeded d).2 ≠ blurred d).
Proof.
  rewrite hideKeyborad_run.
  destruct (activeElement d) as [n|] eqn:Ha.
  - destruct (elements d !! n) as [e|] eqn:He.
    + pose proof (wants_blur_spec d n e Ha He) as Hw.
      destruct (wants_blur e); repeat split.
      * intros n' [Hn' _]. by simplify_eq.
      * intros Hno. exfalso. apply (Hno n). by apply Hw.
      * intros _. simpl. intros Heq.
        apply (f_equal length) in Heq. simpl in Heq. lia.
      * intros _. exists n. by apply Hw.
      * intros n' Hf. assert (n' = n) as -> by (destruct Hf; congruence).
        apply Hw in Hf. done.
      * intros [n' Hf]. assert (n' = n) as -> by (destruct Hf; congruence).
        apply Hw in Hf. done.
      * simpl. done.
    + repeat split.
      * intros n' (Hn' & e & He' & _). simplify_eq.
      * intros [n' (Hn' & e & He' & _)]. simplify_eq.
      * simpl. done.
  - repeat split.
    + intros n' (Hn' & _). congruence.
    + intros [n' (Hn' & _)]. congruence.
    + simpl. done.
Qed.

(** ** Step 2 and the guard as a whole *)

Lemma alter_scrollTop n e v d :
  elements d !! n = Some e →
  with_elements (alter (set_scrollTop v) n) d = scrolledTop n e v d.
Proof.
  intros He. unfold scrolledTop, with_elements. f_equal.
  apply map_eq. intros j.
  rewrite lookup_alter, lookup_insert. case_decide; [by rewrite He|done].
Qed.

Lemma alter_scrollLeft n e v d :
  elements d !! n = Some e →
  with_elements (alter (set_scrollLeft v) n) d = scrolledLeft n e v d.
Proof.
  intros He. unfold scrolledLeft, with_elements. f_equal.
  apply map_eq. intros j.
  rewrite lookup_alter, lookup_insert. case_decide; [by rewrite He|done].
Qed.

(** Step 2 at an element [e] stored at [n]: every case of the two branches. *)
Lemma edgeFix_run event n e v h d :
  elements d !! n = Some e →
  edgeFix event (Some n) v h d =
    if v then
      if bool_decide (scrollTop e = 0) then
        match touches event with
        | [] => (TypeError, d)
        | t :: _ => (Normal (clientY t, true), scrolledTop n e 1 d)
        end
      else if bool_decide (scrollTop e = scrollHeight e - clientHeight e) then
        (Normal (0, false),
         scrolledTop n e (scrollHeight e - clientHeight e - 1) d)
      else (Normal (0, false), d)
    else if h then
      if bool_decide (scrollLeft e = 0) then
        (Normal (0, false), scrolledLeft n e 1 d)
      else if bool_decide (scrollLeft e = scrollWidth e - clientWidth e) then
        (Normal (0, false),
         scrolledLeft n e (scrollWidth e - clientWidth e - 1) d)
      else (Normal (0, false), d)
    else (Normal (0, false), d).
Proof.
  intros He. unfold edgeFix. destruct v; [|destruct h; [|done]].
  - run. rewrite He. case_bool_decide.
    + unfold firstTouchY. destruct (touches event); run; [done|].
      by rewrite (alter_scrollTop n e 1 d He).
    + case_bool_decide; [|done]. by rewrite (alter_scrollTop n e _ d He).
  - run. rewrite He. case_bool_decide.
    + by rewrite (alter_scrollLeft n e 1 d He).
    + case_bool_decide; [|done]. by rewrite (alter_scrollLeft n e _ d He).
Qed.

(** The offsets step 2 writes lie inside the scroll range of the element, so
    a browser that clamps an assigned offset to that range stores them as
    they are. *)
Lemma nudged_offsets_in_range e :
  (scrollHeight e > clientHeight e →
   0 ≤ scrollTop (set_scrollTop 1 e) ≤ scrollHeight e - clientHeight e ∧
   0 ≤ scrollTop (set_scrollTop (scrollHeight e - clientHeight e - 1) e)
     ≤ scrollHeight e - clientHeight e)%Z ∧
  (scrollWidth e > clientWidth e →
   0 ≤ scrollLeft (set_scrollLeft 1 e) ≤ scrollWidth e - clientWidth e ∧
   0 ≤ scrollLeft (set_scrollLeft (scrollWidth e - clientWidth e - 1) e)
     ≤ scrollWidth e - clientWidth e)%Z.
Proof. simpl. lia. Qed.

(** Step 2 at a node without scroll offsets, and at [null]. *)
Lemma edgeFix_undefined event n v h d :
  elements d !! n = None →
  edgeFix event (Some n) v h d = (Normal (0, false), d).
Proof.
  intros He. unfold edgeFix. destruct v; [|destruct h; [|done]];
    run; by rewrite He.
Qed.

Lemma edgeFix_null event v h d :
  edgeFix event None v h d =
    if v || h then (TypeError, d) else (Normal (0, false), d).
Proof. unfold edgeFix. by destruct v, h. Qed.

(** The guard, once step 1 is known. *)
Lemma guard_run event always d t v h :
  locate (target event) d = (Normal (t, v, h), d) →
  preventScrollBugsIfNeeded event always d =
    match edgeFix event t v h d with
    | (Normal (y, fromTop), d1) =>
        let g := {| startY := y; scrollStartedFromTop := fromTop;
                    hasVerticalScroll := v; hasHorizontalScroll := h;
                    alwaysPreventPullToRefresh := always |} in
        (Normal g, registered g d1)
    | (TypeError, d1) => (TypeError, d1)
    end.
Proof.
  intros Hl. unfold preventScrollBugsIfNeeded.
  rewrite (bind_normal _ _ _ _ _ Hl).
  destruct (edgeFix event t v h d) as [[[y fromTop]|] d1] eqn:He.
  - rewrite (bind_normal _ _ _ _ _ He). done.
  - rewrite (bind_throw _ _ _ _ He). done.
Qed.

Lemma guard_throw event always d d' :
  locate (target event) d = (TypeError, d') →
  preventScrollBugsIfNeeded event always d = (TypeError, d).
Proof.
  intros Hl. unfold preventScrollBugsIfNeeded.
  rewrite (bind_throw _ _ _ _ Hl). f_equal.
  pose proof (locate_readonly (target event) d) as Hr. by rewrite Hl in Hr.
Qed.

(** Step 1 at a target that has a marked ancestor. *)
Lemma locate_nearest event d t k e :
  target event = Some t → nearest_marked d t k e →
  locate (target event) d =
    (Normal (Some (ancestor k t),
             bool_decide (scrollHeight e > clientHeight e),
             bool_decide (scrollWidth e > clientWidth e)), d).
Proof. intros -> Hn. simpl. by apply findScrollable_nearest. Qed.

Lemma locate_cases t d :
  (locate t d = (TypeError, d)) ∨
  (∃ r, locate t d = (Normal r, d)).
Proof.
  pose proof (locate_readonly t d) as Hr.
  destruct (locate t d) as [[r|] d']; simpl in Hr; subst; eauto.
Qed.

(** Step 2 writes at most one kind of offset, chosen by the vertical flag
    alone, and nothing but offsets. *)
Lemma edgeFix_frame event t v h d :
  (v = true →
     ∀ n, scrollLeft <$> elements (edgeFix event t v h d).2 !! n
          = scrollLeft <$> elements d !! n) ∧
  (v = false →
     ∀ n, scrollTop <$> elements (edgeFix event t v h d).2 !! n
          = scrollTop <$> elements d !! n).
Proof.
  assert (∀ n m e x,
    elements d !! m = Some e →
    scrollLeft <$> elements (scrolledTop m e x d) !! n
    = scrollLeft <$> elements d !! n) as HT.
  { intros n m e x He. simpl. rewrite lookup_insert.
    case_decide; [subst; by rewrite He|done]. }
  assert (∀ n m e x,
    elements d !! m = Some e →
    scrollTop <$> elements (scrolledLeft m e x d) !! n
    = scrollTop <$> elements d !! n) as HL.
  { intros n m e x He. simpl. rewrite lookup_insert.
    case_decide; [subst; by rewrite He|done]. }
  destruct t as [m|].
  - destruct (elements d !! m) as [e|] eqn:He.
    + rewrite (edgeFix_run _ _ _ _ _ _ He).
      split; intros -> n.
      * case_bool_decide; [destruct (touches event); cbn [snd]; by auto|].
        case_bool_decide; cbn [snd]; by auto.
      * destruct h; [|done].
        case_bool_decide; [cbn [snd]; by auto|].
        case_bool_decide; cbn [snd]; by auto.
    + rewrite (edgeFix_undefined _ _ _ _ _ He). done.
  - rewrite edgeFix_null. by destruct (v || h).
Qed.

Lemma suppress_run event d :
  suppress event d =
    (Normal (stopPropagation (preventDefault event)),
     (hideKeyboradIfNeeded d).2).
Proof.
  unfold suppress. destruct (hideKeyborad_frame d) as (Hn & _).
  destruct (hideKeyboradIfNeeded d) as [r d'] eqn:Hh. simpl in *. subst r.
  by rewrite (bind_normal _ _ _ _ _ Hh).
Qed.

(** A suppressed run and an untouched run cannot be confused. *)
Lemma suppressed_not_untouched run event d :
  suppressed run event d → ¬ untouched run event d.
Proof.
  unfold suppressed, untouched. intros -> Heq.
  destruct (hideKeyborad_frame d) as (_ & _ & _ & Hc).
  injection Heq as _ Hd. rewrite Hd in Hc. lia.
Qed.

(** ** Specified properties *)

(** C4. When the touch target has a marked ancestor below the body (itself
    included), step 1 stops at the nearest one and both scroll flags are
    computed from that element: [scrollHeight > clientHeight] and
    [scrollWidth > clientWidth] of the nearest marked ancestor, whatever the
    geometry of the target and of marked ancestors farther up. The gesture
    the guard then sets up carries those flags. *)
Theorem flags_from_nearest_marked_ancestor
    (event : TouchEvent) (always : bool) (d : Document)
    (t : node) (k : nat) (e : Element) :
  target event = Some t →
  nearest_marked d t k e →
  locate (target event) d =
    (Normal (Some (ancestor k t),
             bool_decide (scrollHeight e > clientHeight e),
             bool_decide (scrollWidth e > clientWidth e)), d) ∧
  (touches event ≠ [] →
   ∃ g d', preventScrollBugsIfNeeded event always d = (Normal g, d') ∧
     hasVerticalScroll g = bool_decide (scrollHeight e > clientHeight e) ∧
     hasHorizontalScroll g = bool_decide (scrollWidth e > clientWidth e)).
Proof.
  intros Ht Hn. pose proof (locate_nearest _ _ _ _ _ Ht Hn) as Hl.
  split; [done|]. intros Htouch.
  rewrite (guard_run _ always _ _ _ _ Hl).
  destruct Hn as (_ & _ & _ & He & _).
  rewrite (edgeFix_run _ _ _ _ _ _ He).
  destruct (bool_decide (scrollHeight e > clientHeight e));
    [|destruct (bool_decide (scrollWidth e > clientWidth e))];
    repeat case_bool_decide; try destruct (touches event); try done;
    by eexists _, _.
Qed.

(** Discharging the chain hypotheses on a concrete page. *)
Ltac by_evaluation := apply (bool_decide_unpack _); vm_compute; exact I.

Ltac solve_nearest :=
  unfold nearest_marked, below_body, plain_element, ancestor;
  split; [simpl; lia|];
  split; [let j := fresh "j" in let Hj := fresh "Hj" in
          intros j Hj; simpl in Hj;
          repeat (destruct j as [|j]; [simpl; discriminate|]);
          exfalso; lia|];
  split; [let j := fresh "j" in let Hj := fresh "Hj" in
          intros j Hj; simpl in Hj;
          repeat (destruct j as [|j];
                  [eexists; split; [reflexivity|by_evaluation]|]);
          exfalso; lia|];
  split; [reflexivity|by_evaluation].

Lemma flags_from_nearest_marked_ancestor_witness :
  ∃ g d',
    preventScrollBugsIfNeeded
      (Sample.touchAt Sample.item [40]) false (Sample.page 0) = (Normal g, d') ∧
    hasVerticalScroll g = true ∧ hasHorizontalScroll g = false.
Proof.
  apply (proj2 (flags_from_nearest_marked_ancestor
           (Sample.touchAt Sample.item [40]) false (Sample.page 0)
           Sample.item 1
           (Sample.div ["scrollable"] 0 0 500 200 400 400)
           eq_refl ltac:(solve_nearest))).
  simpl. discriminate.
Defined.

(** C8. When no ancestor of the touch target below the body carries the
    marker (or the target is null), the call leaves the stored elements, and
    so every scroll offset, as they were; the gesture it sets up has both
    scroll flags false; and if the walk throws, nothing at all has changed.
    The call does complete when every node the walk can meet is an
    element. *)
Theorem no_marked_ancestor_no_nudge
    (event : TouchEvent) (always : bool) (d : Document) :
  (∀ t, target event = Some t → no_marked_ancestor d t) →
  elements (preventScrollBugsIfNeeded event always d).2 = elements d ∧
  match (preventScrollBugsIfNeeded event always d).1 with
  | Normal g =>
      hasVerticalScroll g = false ∧ hasHorizontalScroll g = false ∧
      scrollStartedFromTop g = false
  | TypeError => (preventScrollBugsIfNeeded event always d).2 = d
  end ∧
  ((∀ t, target event = Some t → elements_below_body d t) →
   ∃ g, (preventScrollBugsIfNeeded event always d).1 = Normal g).
Proof.
  intros Hno.
  assert (match (locate (target event) d).1 with
          | Normal (_, v, h) => v = false ∧ h = false
          | TypeError => True
          end) as Hflags.
  { destruct (target event) as [t|]; simpl; [|done].
    by apply findScrollable_unmarked, Hno. }
  destruct (locate_cases (target event) d) as [Hl|[[[t' v] h] Hl]].
  - rewrite (guard_throw _ always _ _ Hl). simpl.
    split; [done|]. split; [done|]. intros Hel.
    destruct (target event) as [t|]; simpl in Hl; [|done].
    destruct (findScrollable_normal t d (Hel t eq_refl)) as [r Hr].
    congruence.
  - rewrite Hl in Hflags. simpl in Hflags. destruct Hflags as [-> ->].
    rewrite (guard_run _ always _ _ _ _ Hl).
    assert (edgeFix event t' false false d = (Normal (0, false), d)) as ->
      by done.
    simpl. repeat split; try done. intros _. by eexists.
Qed.

Lemma no_marked_ancestor_no_nudge_witness :
  elements (preventScrollBugsIfNeeded
              (Sample.touchAt Sample.plain [40]) true (Sample.page 0)).2
  = elements (Sample.page 0).
Proof.
  apply (no_marked_ancestor_no_nudge
           (Sample.touchAt Sample.plain [40]) true (Sample.page 0)).
  intros t Ht. injection Ht as <-.
  intros k Hk Hbelow. simpl in Hk.
  destruct k as [|k].
  - intros (e & He & Hm). vm_compute in He. injection He as <-.
    revert Hm. by_evaluation.
  - exfalso. apply (Hbelow 1%nat); [lia|reflexivity].
Defined.

(** C3. When the nearest marked ancestor [e] has vertical scroll:
    - at offset 0 (and with a first touch point) [startY] is that touch's Y,
      [scrollStartedFromTop] is true and the offset becomes 1;
    - at offset [scrollHeight - clientHeight] the offset becomes that value
      minus one and [scrollStartedFromTop] is false;
    - at any other offset, so in particular strictly between the two, no
      element changes.
    In each case no other element is written. *)
Theorem vertical_edge_nudge
    (event : TouchEvent) (always : bool) (d : Document)
    (t : node) (k : nat) (e : Element) :
  target event = Some t →
  nearest_marked d t k e →
  scrollHeight e > clientHeight e →
  (scrollTop e = 0 →
   ∀ first rest, touches event = first :: rest →
   ∃ g d', preventScrollBugsIfNeeded event always d = (Normal g, d') ∧
     startY g = clientY first ∧ scrollStartedFromTop g = true ∧
     elements d' = <[ancestor k t := set_scrollTop 1 e]> (elements d)) ∧
  (scrollTop e = scrollHeight e - clientHeight e →
   ∃ g d', preventScrollBugsIfNeeded event always d = (Normal g, d') ∧
     scrollStartedFromTop g = false ∧
     elements d' =
       <[ancestor k t := set_scrollTop (scrollHeight e - clientHeight e - 1) e]>
         (elements d)) ∧
  (scrollTop e ≠ 0 → scrollTop e ≠ scrollHeight e - clientHeight e →
   ∃ g d', preventScrollBugsIfNeeded event always d = (Normal g, d') ∧
     scrollStartedFromTop g = false ∧ elements d' = elements d).
Proof.
  intros Ht Hn Hv. pose proof (locate_nearest _ _ _ _ _ Ht Hn) as Hl.
  rewrite (guard_run _ always _ _ _ _ Hl).
  destruct Hn as (_ & _ & _ & He & _).
  rewrite (edgeFix_run _ _ _ _ _ _ He).
  rewrite (bool_decide_eq_true_2 _ Hv).
  split; [|split].
  - intros H0 first rest ->. rewrite (bool_decide_eq_true_2 _ H0).
    by eexists _, _.
  - intros Hmax. rewrite bool_decide_eq_false_2 by lia.
    rewrite (bool_decide_eq_true_2 _ Hmax). by eexists _, _.
  - intros H0 Hmax. rewrite !bool_decide_eq_false_2 by done.
    by eexists _, _.
Qed.

Lemma vertical_edge_nudge_witness :
  ∃ g d',
    preventScrollBugsIfNeeded
      (Sample.touchAt Sample.item [40]) false (Sample.page 0) = (Normal g, d') ∧
    startY g = 40 ∧ scrollStartedFromTop g = true ∧
    elements d' =
      <[Sample.list_ := Sample.div ["scrollable"] 1 0 500 200 400 400]>
        (elements (Sample.page 0)).
Proof.
  apply (proj1 (vertical_edge_nudge
           (Sample.touchAt Sample.item [40]) false (Sample.page 0)
           Sample.item 1
           (Sample.div ["scrollable"] 0 0 500 200 400 400)
           eq_refl ltac:(solve_nearest) ltac:(simpl; lia))
         eq_refl {| clientY := 40 |} [] eq_refl).
Defined.

(** The bottom edge of the same list: offset 300 = 500 - 200 becomes 299. *)
Example bottom_edge_nudge :
  let r := preventScrollBugsIfNeeded
             (Sample.touchAt Sample.item [40]) false (Sample.page 300) in
  (∃ g, r.1 = Normal g ∧ scrollStartedFromTop g = false) ∧
  scrollTop <$> elements r.2 !! Sample.list_ = Some 299.
Proof.
  split; [eexists; split; [vm_compute; reflexivity|reflexivity]|].
  vm_compute. reflexivity.
Qed.

(** Every invocation either changes the stored elements in [scrollTop] only
    or in [scrollLeft] only. *)
Lemma guard_frame event always d :
  elements (preventScrollBugsIfNeeded event always d).2 = elements d ∨
  ∃ t v h,
    locate (target event) d = (Normal (t, v, h), d) ∧
    elements (preventScrollBugsIfNeeded event always d).2
    = elements (edgeFix event t v h d).2.
Proof.
  destruct (locate_cases (target event) d) as [Hl|[[[t v] h] Hl]].
  - left. by rewrite (guard_throw _ always _ _ Hl).
  - right. exists t, v, h. split; [done|].
    rewrite (guard_run _ always _ _ _ _ Hl).
    by destruct (edgeFix event t v h d) as [[[y s]|] d1].
Qed.

(** C6. In every invocation at most one of the two branches of step 2
    writes: either no [scrollLeft] changes or no [scrollTop] changes. The
    vertical flag is tested first: with vertical scroll no [scrollLeft] is
    written, whatever the horizontal geometry. Without vertical scroll and
    with horizontal scroll no [scrollTop] is written and [scrollLeft] gets
    the same treatment from [scrollWidth] and [clientWidth]: 0 becomes 1,
    [scrollWidth - clientWidth] becomes that value minus one, any other
    offset stays. *)
Theorem horizontal_nudge_only_without_vertical
    (event : TouchEvent) (always : bool) (d : Document) :
  let d' := (preventScrollBugsIfNeeded event always d).2 in
  ((∀ n, scrollLeft <$> elements d' !! n = scrollLeft <$> elements d !! n) ∨
   (∀ n, scrollTop <$> elements d' !! n = scrollTop <$> elements d !! n)) ∧
  ∀ t k e,
    target event = Some t → nearest_marked d t k e →
    (scrollHeight e > clientHeight e →
     ∀ n, scrollLeft <$> elements d' !! n = scrollLeft <$> elements d !! n) ∧
    (¬ scrollHeight e > clientHeight e → scrollWidth e > clientWidth e →
     (∃ g, (preventScrollBugsIfNeeded event always d).1 = Normal g) ∧
     (∀ n, scrollTop <$> elements d' !! n = scrollTop <$> elements d !! n) ∧
     (scrollLeft e = 0 →
      elements d' = <[ancestor k t := set_scrollLeft 1 e]> (elements d)) ∧
     (scrollLeft e = scrollWidth e - clientWidth e →
      elements d' =
        <[ancestor k t := set_scrollLeft (scrollWidth e - clientWidth e - 1) e]>
          (elements d)) ∧
     (scrollLeft e ≠ 0 → scrollLeft e ≠ scrollWidth e - clientWidth e →
      elements d' = elements d)).
Proof.
  intros d'. subst d'. split.
  - destruct (guard_frame event always d) as [->|(t & v & h & _ & ->)];
      [by left|].
    destruct (edgeFix_frame event t v h d) as [Hv Hh].
    destruct v; [left; by apply Hv|right; by apply Hh].
  - intros t k e Ht Hn.
    pose proof (locate_nearest _ _ _ _ _ Ht Hn) as Hl.
    rewrite (guard_run _ always _ _ _ _ Hl).
    pose proof (edgeFix_frame event (Some (ancestor k t))
      (bool_decide (scrollHeight e > clientHeight e))
      (bool_decide (scrollWidth e > clientWidth e)) d) as [Hv Hh].
    destruct Hn as (_ & _ & _ & He & _).
    split.
    + intros Hgt n. rewrite (bool_decide_eq_true_2 _ Hgt) in *.
      rewrite <- (Hv eq_refl n).
      by destruct (edgeFix _ _ _ _ _) as [[[y s]|] d1].
    + intros Hngt Hw. rewrite (bool_decide_eq_false_2 _ Hngt) in *.
      rewrite (bool_decide_eq_true_2 _ Hw) in *.
      specialize (Hh eq_refl). revert Hh.
      rewrite (edgeFix_run _ _ _ _ _ _ He).
      repeat case_bool_decide; simpl; intros Hh;
        (split; [by eexists|]); (split; [done|]);
        repeat split; intros; (done || lia).
Qed.

Lemma horizontal_nudge_only_without_vertical_witness :
  elements (preventScrollBugsIfNeeded
              (Sample.touchAt Sample.strip [40]) false (Sample.page 0)).2
  = <[Sample.strip := Sample.div ["scrollable"] 0 1 100 100 1000 400]>
      (elements (Sample.page 0)).
Proof.
  apply (proj2 (horizontal_nudge_only_without_vertical
                  (Sample.touchAt Sample.strip [40]) false (Sample.page 0))
           Sample.strip 0%nat
           (Sample.div ["scrollable"] 0 0 100 100 1000 400)
           eq_refl ltac:(solve_nearest));
    [simpl; lia|simpl; lia|reflexivity].
Defined.

Lemma hideKeyborad_blurs_exactly_text_inputs_witness :
  hideKeyboradIfNeeded (Sample.page 0)
  = (Normal tt, dismisser_blurred Sample.field (Sample.page 0)).
Proof.
  apply (proj1 (hideKeyborad_blurs_exactly_text_inputs (Sample.page 0))).
  split; [reflexivity|].
  exists (Sample.input "TEXT").
  split; [reflexivity|]. split; [reflexivity|].
  split; [reflexivity|]. left. reflexivity.
Defined.

(** ** The touchmove handler *)

Lemma onTouchMove_top g event d :
  hasVerticalScroll g = true → scrollStartedFromTop g = true →
  onTouchMove g event d =
    match touches event with
    | [] => (TypeError, d)
    | first :: _ =>
        if bool_decide (clientY first > startY g)
        then (Normal (stopPropagation (preventDefault event)),
              (hideKeyboradIfNeeded d).2)
        else (Normal event, d)
    end.
Proof.
  intros Hv Hs. unfold onTouchMove, topStartBranch, firstTouchY.
  rewrite Hv, Hs. simpl. destruct (touches event) as [|first rest]; [done|].
  run. case_bool_decide; [apply suppress_run|done].
Qed.

Lemma alwaysPreventBranch_run g event d :
  alwaysPreventBranch g event d =
    if alwaysPreventPullToRefresh g
       && negb (hasVerticalScroll g) && negb (hasHorizontalScroll g)
    then (Normal (stopPropagation (preventDefault event)),
          (hideKeyboradIfNeeded d).2)
    else (Normal event, d).
Proof.
  unfold alwaysPreventBranch.
  destruct (alwaysPreventPullToRefresh g), (hasVerticalScroll g),
    (hasHorizontalScroll g); simpl; try done; apply suppress_run.
Qed.

(** The guard hands its second argument to the handlers unchanged. *)
Lemma guard_always event always d g d' :
  preventScrollBugsIfNeeded event always d = (Normal g, d') →
  alwaysPreventPullToRefresh g = always.
Proof.
  destruct (locate_cases (target event) d) as [Hl|[[[t v] h] Hl]].
  - rewrite (guard_throw _ always _ _ Hl). done.
  - rewrite (guard_run _ always _ _ _ _ Hl).
    destruct (edgeFix event t v h d) as [[[y s]|] d1]; [|done].
    intros [= <- _]. done.
Qed.

(** The calls the touchmove handler makes after a start from the top. In a
    gesture whose nearest marked ancestor [e] has vertical scroll and was at
    offset 0 at touchstart, the guard records the first touch's Y and marks
    the gesture as started from the top; from then on, in any later state,
    on a touchmove whose first touch point lies strictly below that Y
    (greater [clientY]) the handler calls [preventDefault()] and
    [stopPropagation()] and runs the keyboard dismisser, and a touchmove
    whose first touch point has a [clientY] less than or equal to it is left
    alone, with no call to the dismisser. What the calls achieve depends on
    how the browser runs the listener. *)
Theorem pull_down_from_top_is_suppressed
    (event : TouchEvent) (always : bool) (d : Document)
    (t : node) (k : nat) (e : Element) (first : Touch) (rest : list Touch) :
  target event = Some t →
  nearest_marked d t k e →
  scrollHeight e > clientHeight e →
  scrollTop e = 0 →
  touches event = first :: rest →
  ∃ g d1,
    preventScrollBugsIfNeeded event always d = (Normal g, d1) ∧
    scrollStartedFromTop g = true ∧ startY g = clientY first ∧
    ∀ (move : TouchEvent) (p : Touch) (ps : list Touch) (d2 : Document),
      touches move = p :: ps →
      (clientY p > clientY first → suppressed (onTouchMove g move) move d2) ∧
      ((clientY p ≤ clientY first)%Z → untouched (onTouchMove g move) move d2).
Proof.
  intros Ht Hn Hv H0 Htouch.
  pose proof (locate_nearest _ _ _ _ _ Ht Hn) as Hl.
  rewrite (guard_run _ always _ _ _ _ Hl).
  destruct Hn as (_ & _ & _ & He & _).
  rewrite (edgeFix_run _ _ _ _ _ _ He).
  rewrite (bool_decide_eq_true_2 _ Hv), (bool_decide_eq_true_2 _ H0), Htouch.
  eexists _, _. split; [done|]. split; [done|]. split; [done|].
  intros move p ps d2 Hm. unfold suppressed, untouched.
  rewrite onTouchMove_top by done. rewrite Hm. simpl.
  split; intros Hy.
  - by rewrite bool_decide_eq_true_2.
  - by rewrite bool_decide_eq_false_2 by lia.
Qed.

Lemma pull_down_from_top_is_suppressed_witness :
  ∃ g d1,
    preventScrollBugsIfNeeded
      (Sample.touchAt Sample.item [40]) false (Sample.page 0) = (Normal g, d1) ∧
    scrollStartedFromTop g = true ∧ startY g = 40 ∧
    ∀ (move : TouchEvent) (p : Touch) (ps : list Touch) (d2 : Document),
      touches move = p :: ps →
      (clientY p > 40 → suppressed (onTouchMove g move) move d2) ∧
      ((clientY p ≤ 40)%Z → untouched (onTouchMove g move) move d2).
Proof.
  apply (pull_down_from_top_is_suppressed
           (Sample.touchAt Sample.item [40]) false (Sample.page 0)
           Sample.item 1
           (Sample.div ["scrollable"] 0 0 500 200 400 400)
           {| clientY := 40 |} []
           eq_refl ltac:(solve_nearest) ltac:(simpl; lia) eq_refl eq_refl).
Defined.

(** A pull of 15 px while a text field has the focus, as the browser runs
    the listener: the propagation is stopped and the field loses the focus,
    the canceled flag stays unset; a touchmove at the start height changes
    nothing. *)
Example pull_down_blurs_field :
  let r := preventScrollBugsIfNeeded
             (Sample.touchAt Sample.item [40]) false (Sample.page 0) in
  ∃ g, r.1 = Normal g ∧
    let r' := invoke (moveListener 0 g) (Sample.touchAt Sample.item [55]) r.2 in
    propagationStopped r'.1 = true ∧ defaultPrevented r'.1 = false ∧
    blurred r'.2 = [Sample.field] ∧
    invoke (moveListener 0 g) (Sample.touchAt Sample.item [40]) r.2
    = (Sample.touchAt Sample.item [40], r.2).
Proof.
  eexists. split; [vm_compute; reflexivity|].
  split; [vm_compute; reflexivity|]. split; [vm_compute; reflexivity|].
  split; vm_compute; reflexivity.
Qed.

(** The calls of the always-prevent branch. In a gesture started with
    [alwaysPreventPullToRefresh = true], the branch calls [preventDefault()]
    and [stopPropagation()] and runs the dismisser exactly when both scroll
    flags are false; with either flag true it does nothing. With both flags
    false the handler as a whole makes these calls on every touchmove. *)
Theorem always_prevent_only_outside_scrollables
    (event : TouchEvent) (d : Document) (g : Gesture) (d1 : Document) :
  preventScrollBugsIfNeeded event true d = (Normal g, d1) →
  ∀ (move : TouchEvent) (d2 : Document),
    (suppressed (alwaysPreventBranch g move) move d2 ↔
     hasVerticalScroll g = false ∧ hasHorizontalScroll g = false) ∧
    (hasVerticalScroll g = true ∨ hasHorizontalScroll g = true →
     untouched (alwaysPreventBranch g move) move d2) ∧
    (hasVerticalScroll g = false ∧ hasHorizontalScroll g = false →
     suppressed (onTouchMove g move) move d2).
Proof.
  intros Hg move d2. apply guard_always in Hg.
  assert (hasVerticalScroll g = true ∨ hasHorizontalScroll g = true →
          untouched (alwaysPreventBranch g move) move d2) as Hno.
  { intros Hor. unfold untouched. rewrite alwaysPreventBranch_run, Hg.
    destruct Hor as [-> | ->]; [done|].
    by destruct (hasVerticalScroll g). }
  assert (hasVerticalScroll g = false ∧ hasHorizontalScroll g = false →
          suppressed (alwaysPreventBranch g move) move d2) as Hyes.
  { intros [Hv Hh]. unfold suppressed.
    by rewrite alwaysPreventBranch_run, Hg, Hv, Hh. }
  split; [split|split].
  - intros Hs.
    destruct (hasVerticalScroll g) eqn:Hv;
      [exfalso; eapply suppressed_not_untouched; eauto|].
    destruct (hasHorizontalScroll g) eqn:Hh;
      [exfalso; eapply suppressed_not_untouched; eauto|done].
  - done.
  - done.
  - intros [Hv Hh]. unfold suppressed, onTouchMove. rewrite Hv. simpl.
    by apply Hyes.
Qed.

Lemma always_prevent_only_outside_scrollables_witness :
  suppressed
    (onTouchMove
       {| startY := 0; scrollStartedFromTop := false;
          hasVerticalScroll := false; hasHorizontalScroll := false;
          alwaysPreventPullToRefresh := true |}
       (Sample.touchAt Sample.plain [90]))
    (Sample.touchAt Sample.plain [90]) (Sample.page 0).
Proof.
  apply (always_prevent_only_outside_scrollables
           (Sample.touchAt Sample.plain [40]) (Sample.page 0)
           {| startY := 0; scrollStartedFromTop := false;
              hasVerticalScroll := false; hasHorizontalScroll := false;
              alwaysPreventPullToRefresh := true |}
           (preventScrollBugsIfNeeded
              (Sample.touchAt Sample.plain [40]) true (Sample.page 0)).2).
  - vm_compute. reflexivity.
  - split; reflexivity.
Defined.

(** Inside a scrollable list that is not at its top, the same policy leaves
    a touchmove alone. *)
Example always_prevent_inside_list :
  let r := preventScrollBugsIfNeeded
             (Sample.touchAt Sample.item [40]) true (Sample.page 120) in
  ∃ g, r.1 = Normal g ∧
    onTouchMove g (Sample.touchAt Sample.item [90]) r.2
    = (Normal (Sample.touchAt Sample.item [90]), r.2).
Proof. eexists. split; vm_compute; reflexivity. Qed.

Lemma handleMoves_untouched g :
  (∀ move d, untouched (onTouchMove g move) move d) →
  ∀ moves d, handleMoves g moves d = (Normal moves, d).
Proof.
  intros Hu moves. induction moves as [|move rest IH]; intros d; [done|].
  simpl. rewrite (bind_normal _ _ _ _ _ (Hu move d)).
  by rewrite (bind_normal _ _ _ _ _ (IH d)).
Qed.

(** C10. In a gesture whose nearest marked ancestor has horizontal but no
    vertical scroll, whatever the always-prevent flag, the touchmove handler
    leaves every event and every state as it finds them: no event of the
    gesture is cancelled or stopped and the dismisser is never invoked. The
    guard itself changed no element except, possibly, the [scrollLeft] of
    that ancestor. *)
Theorem horizontal_only_gesture_never_suppresses
    (event : TouchEvent) (always : bool) (d : Document)
    (t : node) (k : nat) (e : Element) :
  target event = Some t →
  nearest_marked d t k e →
  ¬ scrollHeight e > clientHeight e →
  scrollWidth e > clientWidth e →
  ∃ g d1,
    preventScrollBugsIfNeeded event always d = (Normal g, d1) ∧
    hasVerticalScroll g = false ∧ hasHorizontalScroll g = true ∧
    (∀ move d2, untouched (onTouchMove g move) move d2) ∧
    (∀ moves d2, handleMoves g moves d2 = (Normal moves, d2)) ∧
    (elements d1 = elements d ∨
     ∃ x, elements d1 = <[ancestor k t := set_scrollLeft x e]> (elements d)) ∧
    activeElement d1 = activeElement d ∧ blurred d1 = blurred d ∧
    dismisserCalls d1 = dismisserCalls d.
Proof.
  intros Ht Hn Hv Hh. pose proof (locate_nearest _ _ _ _ _ Ht Hn) as Hl.
  rewrite (guard_run _ always _ _ _ _ Hl).
  destruct Hn as (_ & _ & _ & He & _).
  rewrite (edgeFix_run _ _ _ _ _ _ He).
  rewrite (bool_decide_eq_false_2 _ Hv), (bool_decide_eq_true_2 _ Hh).
  assert (∀ y s move d2,
    untouched
      (onTouchMove {| startY := y; scrollStartedFromTop := s;
                      hasVerticalScroll := false; hasHorizontalScroll := true;
                      alwaysPreventPullToRefresh := always |} move)
      move d2) as Hu.
  { intros y s move d2. unfold untouched, onTouchMove. simpl.
    rewrite alwaysPreventBranch_run. simpl. by rewrite andb_false_r. }
  repeat case_bool_decide; eexists _, _;
    (split; [done|]); (split; [done|]); (split; [done|]);
    (split; [apply Hu|]); (split; [apply handleMoves_untouched, Hu|]);
    (split; [|done]); simpl; eauto.
Qed.

Lemma horizontal_only_gesture_never_suppresses_witness :
  ∃ g d1,
    preventScrollBugsIfNeeded
      (Sample.touchAt Sample.strip [40]) true (Sample.page 0) = (Normal g, d1) ∧
    hasVerticalScroll g = false ∧ hasHorizontalScroll g = true ∧
    (∀ move d2, untouched (onTouchMove g move) move d2) ∧
    (∀ moves d2, handleMoves g moves d2 = (Normal moves, d2)) ∧
    (elements d1 = elements (Sample.page 0) ∨
     ∃ x, elements d1 =
          <[Sample.strip :=
              set_scrollLeft x (Sample.div ["scrollable"] 0 0 100 100 1000 400)]>
            (elements (Sample.page 0))) ∧
    activeElement d1 = Some Sample.field ∧ blurred d1 = [] ∧
    dismisserCalls d1 = 0%nat.
Proof.
  apply (horizontal_only_gesture_never_suppresses
           (Sample.touchAt Sample.strip [40]) true (Sample.page 0)
           Sample.strip 0%nat
           (Sample.div ["scrollable"] 0 0 100 100 1000 400)
           eq_refl ltac:(solve_nearest) ltac:(simpl; lia) ltac:(simpl; lia)).
Defined.

(** ** The listener pair *)

Lemma same_listener_other_id l x :
  fnId (l_callback l) ≠ fnId (l_callback x) → same_listener l x = false.
Proof.
  intros Hne. unfold same_listener, same_function.
  rewrite (bool_decide_eq_false_2 (fnId _ = fnId _)) by done.
  by rewrite andb_false_r, andb_false_r.
Qed.

Lemma same_listener_refl l : same_listener l l = true.
Proof.
  unfold same_listener, same_function.
  by rewrite !bool_decide_eq_true_2.
Qed.

Lemma same_listener_other_capture l x :
  l_capture l ≠ l_capture x → same_listener l x = false.
Proof.
  intros Hne. unfold same_listener.
  rewrite (bool_decide_eq_false_2 (l_capture _ = l_capture _)) by done.
  by rewrite andb_false_r.
Qed.

Lemma add_listener_new l ls :
  (∀ x, x ∈ ls → same_listener l x = false) →
  add_listener l ls = (ls ++ [l])%list.
Proof.
  intros Hnew. unfold add_listener.
  destruct (existsb (same_listener l) ls) eqn:Hex; [|done].
  apply existsb_exists in Hex as (x & Hin & Hsame).
  apply list_elem_of_In in Hin. rewrite (Hnew x Hin) in Hsame. done.
Qed.

Lemma remove_listener_app l ls tail :
  (∀ x, x ∈ ls → same_listener l x = false) →
  remove_listener l (ls ++ tail) = (ls ++ remove_listener l tail)%list.
Proof.
  induction ls as [|x ls IH]; intros Hnew; [done|]. simpl.
  rewrite (Hnew x) by apply list_elem_of_here.
  f_equal. apply IH. intros y Hy. apply Hnew. by apply list_elem_of_further.
Qed.

(** The listeners on the body after a completed invocation. *)
Lemma guard_listeners event always d g d1 :
  preventScrollBugsIfNeeded event always d = (Normal g, d1) →
  functionsCreated d1 = S (functionsCreated d) ∧
  bodyListeners d1 =
    add_listener (endListener (functionsCreated d) g)
      (add_listener (moveListener (functionsCreated d) g) (bodyListeners d)).
Proof.
  destruct (locate_cases (target event) d) as [Hl|[[[t v] h] Hl]].
  - rewrite (guard_throw _ always _ _ Hl). done.
  - rewrite (guard_run _ always _ _ _ _ Hl).
    assert (functionsCreated (edgeFix event t v h d).2 = functionsCreated d ∧
            bodyListeners (edgeFix event t v h d).2 = bodyListeners d)
      as [Hf Hb].
    { destruct t as [m|]; [|rewrite edgeFix_null; by destruct (v || h)].
      destruct (elements d !! m) as [e|] eqn:He;
        [|by rewrite (edgeFix_undefined _ _ _ _ _ He)].
      rewrite (edgeFix_run _ _ _ _ _ _ He).
      destruct v; [|destruct h]; repeat case_bool_decide;
        try destruct (touches event); simpl; done. }
    destruct (edgeFix event t v h d) as [[[y s]|] d2]; [|done].
    simpl in Hf, Hb. intros [= <- <-]. simpl. by rewrite Hf, Hb.
Qed.

Lemma remove_listener_subset l ls x :
  x ∈ remove_listener l ls → x ∈ ls.
Proof.
  induction ls as [|y ls IH]; simpl; [done|].
  destruct (same_listener l y).
  - by apply list_elem_of_further.
  - intros [->|Hx]%elem_of_cons; [apply list_elem_of_here|].
    by apply list_elem_of_further, IH.
Qed.

Lemma add_listener_elem l ls x :
  x ∈ add_listener l ls → x ∈ ls ∨ x = l.
Proof.
  unfold add_listener. destruct (existsb _ _); [by left|].
  intros [Hx| ->%list_elem_of_singleton]%elem_of_app; by auto.
Qed.

(** [listeners_known] is an invariant of the guard and of its touchend
    handler. *)
Lemma guard_keeps_listeners_known event always d g d1 :
  listeners_known d →
  preventScrollBugsIfNeeded event always d = (Normal g, d1) →
  listeners_known d1.
Proof.
  intros Hknown Hg. destruct (guard_listeners _ _ _ _ _ Hg) as [Hf Hb].
  intros x. rewrite Hf, Hb.
  intros [[Hx| ->]%add_listener_elem| ->]%add_listener_elem; simpl;
    [specialize (Hknown x Hx)|..]; lia.
Qed.

Lemma onTouchEnd_keeps_listeners_known id g d :
  listeners_known d → listeners_known (onTouchEnd id g d).2.
Proof.
  intros Hknown x. unfold onTouchEnd, removeEventListener. run.
  intros Hx%remove_listener_subset%remove_listener_subset. by apply Hknown.
Qed.

(** C5. On a body whose listeners all stem from earlier invocations, a
    completed invocation appends exactly its touchmove listener and its
    touchend listener. When its touchend handler then runs, the touchmove
    listener goes, but the touchend listener stays: it was added with the
    capture flag set and the removal names it without, so the removal
    matches nothing. Touchmove events in between change no listener. *)
Theorem touchend_listener_survives_touchend
    (event : TouchEvent) (always : bool) (d : Document)
    (g : Gesture) (d1 : Document) :
  listeners_known d →
  preventScrollBugsIfNeeded event always d = (Normal g, d1) →
  let id := functionsCreated d in
  bodyListeners d1 =
    (bodyListeners d ++ [moveListener id g; endListener id g])%list ∧
  (∀ move d2, bodyListeners (onTouchMove g move d2).2 = bodyListeners d2) ∧
  onTouchEnd id g d1 =
    (Normal tt,
     with_listeners (λ _, (bodyListeners d ++ [endListener id g])%list) d1).
Proof.
  intros Hknown Hg id. destruct (guard_listeners _ _ _ _ _ Hg) as [_ Hb].
  assert (∀ l, fnId (l_callback l) = id →
               ∀ x, x ∈ bodyListeners d → same_listener l x = false) as Hold.
  { intros l Hl x Hx. apply same_listener_other_id.
    specialize (Hknown x Hx). unfold id in Hl. lia. }
  assert (bodyListeners d1 =
            (bodyListeners d ++ [moveListener id g; endListener id g])%list)
    as Hd1.
  { rewrite Hb. fold id.
    rewrite (add_listener_new (moveListener id g)) by (by apply Hold).
    rewrite add_listener_new.
    - by rewrite <- app_assoc.
    - intros x [Hx| ->%list_elem_of_singleton]%elem_of_app;
        [by apply Hold|done]. }
  split; [done|]. split.
  - intros move d2. unfold onTouchMove, topStartBranch, firstTouchY.
    destruct (hideKeyborad_frame d2) as (_ & _ & Hl & _).
    destruct (hasVerticalScroll g && scrollStartedFromTop g).
    + destruct (touches move); run; [done|].
      case_bool_decide; [by rewrite suppress_run|done].
    + rewrite alwaysPreventBranch_run. by destruct (_ && _ && _).
  - unfold onTouchEnd, removeEventListener. run.
    unfold with_listeners. simpl. rewrite Hd1. do 2 f_equal.
    rewrite remove_listener_app by (by apply Hold).
    unfold moveListener, endListener. simpl.
    rewrite same_listener_refl.
    rewrite remove_listener_app by (by apply Hold). simpl.
    rewrite same_listener_other_capture by done. done.
Qed.

Lemma touchend_listener_survives_touchend_witness :
  let g := {| startY := 40; scrollStartedFromTop := true;
              hasVerticalScroll := true; hasHorizontalScroll := false;
              alwaysPreventPullToRefresh := false |} in
  let d1 := (preventScrollBugsIfNeeded
               (Sample.touchAt Sample.item [40]) false (Sample.page 0)).2 in
  bodyListeners d1 = [moveListener 0 g; endListener 0 g] ∧
  (∀ move d2, bodyListeners (onTouchMove g move d2).2 = bodyListeners d2) ∧
  onTouchEnd 0 g d1 = (Normal tt, with_listeners (λ _, [endListener 0 g]) d1).
Proof.
  apply (touchend_listener_survives_touchend
           (Sample.touchAt Sample.item [40]) false (Sample.page 0)).
  - intros l Hl. simpl in Hl. by apply elem_of_nil in Hl.
  - vm_compute. reflexivity.
Defined.

(** Two complete gestures on the sample page, each ended by its touchend:
    both touchend listeners are still on the body afterwards. *)
Example two_gestures_leave_two_listeners :
  let start := preventScrollBugsIfNeeded (Sample.touchAt Sample.item [40]) false in
  ∃ g1 g2,
    (start (Sample.page 120)).1 = Normal g1 ∧
    let d1 := (onTouchEnd 0 g1 (start (Sample.page 120)).2).2 in
    (start d1).1 = Normal g2 ∧
    let d2 := (onTouchEnd 1 g2 (start d1).2).2 in
    bodyListeners d2 = [endListener 0 g1; endListener 1 g2].
Proof.
  eexists _, _. split; [vm_compute; reflexivity|].
  split; vm_compute; reflexivity.
Qed.

(** ** Exceptions *)

(** A raised flag means the walk stopped at an element. *)
Lemma findScrollable_flag_target t : ∀ d t' v h d',
  findScrollable t d = (Normal (t', v, h), d') →
  v || h = true →
  ∃ m e, t' = Some m ∧ elements d !! m = Some e.
Proof.
  induction t as [|i p IH]; intros d t' v h d'; simpl; run;
    case_bool_decide; try (intros [= <- <- <- _]; done);
    destruct (elements d !! _) as [e|] eqn:He; try done;
    destruct (contains _ _); try (intros [= <- <- <- _]; by eauto).
  apply IH.
Qed.

(** Step 2 throws in one situation only. *)
Lemma edgeFix_cases event t v h d :
  (∃ y s d1, edgeFix event t v h d = (Normal (y, s), d1) ∧
             (s = true → v = true)) ∨
  (edgeFix event t v h d = (TypeError, d) ∧
   (t = None ∨
    touches event = [] ∧ v = true ∧
    ∃ m e, t = Some m ∧ elements d !! m = Some e ∧ scrollTop e = 0)).
Proof.
  destruct t as [m|].
  - destruct (elements d !! m) as [e|] eqn:He.
    + rewrite (edgeFix_run _ _ _ _ _ _ He).
      destruct v; [|left; destruct h; repeat case_bool_decide;
                     by eexists _, _, _].
      case_bool_decide as H0.
      * destruct (touches event) as [|first rest];
          [right; split; [done|]; right; by eauto 10
          |left; by eexists _, _, _].
      * left. case_bool_decide; by eexists _, _, _.
    + rewrite (edgeFix_undefined _ _ _ _ _ He). left. by eexists _, _, _.
  - rewrite edgeFix_null. destruct (v || h); [right; by auto|].
    left. by eexists _, _, _.
Qed.

(** A gesture that started from the top has vertical scroll. *)
Lemma guard_top_is_vertical event always d g d1 :
  preventScrollBugsIfNeeded event always d = (Normal g, d1) →
  scrollStartedFromTop g = true → hasVerticalScroll g = true.
Proof.
  destruct (locate_cases (target event) d) as [Hl|[[[t v] h] Hl]].
  - rewrite (guard_throw _ always _ _ Hl). done.
  - rewrite (guard_run _ always _ _ _ _ Hl).
    destruct (edgeFix_cases event t v h d)
      as [(y & s & d2 & -> & Hs)|[-> _]]; [|done].
    intros [= <- _]. done.
Qed.

(** A touch on the root element, outside the body: the walk climbs to the
    document node, which has no class list, and the guard throws although
    the event carries a touch point. *)
Example touch_on_root_element_throws :
  touches (Sample.touchAt Sample.html [40]) ≠ [] ∧
  preventScrollBugsIfNeeded
    (Sample.touchAt Sample.html [40]) false (Sample.page 0)
  = (TypeError, Sample.page 0).
Proof. split; [discriminate|]. vm_compute. reflexivity. Qed.

(** * Further properties of the code *)

(** ** The four ends of the ancestor walk *)

Lemma plain_below_cons d i p k :
  i :: p ≠ body d → plain_element d (i :: p) →
  plain_below d p k → plain_below d (i :: p) (S k).
Proof.
  intros Hb Hp Hk [|j] Hj; [done|]. apply (Hk j). lia.
Qed.

Lemma nearest_marked_cons d i p k e :
  i :: p ≠ body d → plain_element d (i :: p) →
  nearest_marked d p k e → nearest_marked d (i :: p) (S k) e.
Proof.
  intros Hb Hp (Hlen & Hbody & Hplain & He & Hm).
  repeat split; try done.
  - simpl. lia.
  - intros [|j] Hj; [done|]. apply (Hbody j). lia.
  - intros [|j] Hj; [done|]. apply (Hplain j). lia.
Qed.

Lemma nearest_marked_plain_below d t k e :
  nearest_marked d t k e → plain_below d t k.
Proof.
  intros (_ & Hbody & Hplain & _) j Hj. split; [apply Hbody; lia|by apply Hplain].
Qed.

(** Step 1 ends in one of four ways, each with its result. *)
Lemma findScrollable_ends (t : node) (d : Document) :
  (∃ k e, nearest_marked d t k e ∧
     findScrollable t d =
       (Normal (Some (ancestor k t),
                bool_decide (scrollHeight e > clientHeight e),
                bool_decide (scrollWidth e > clientWidth e)), d)) ∨
  (∃ k, stops_at_body d t k ∧
     findScrollable t d = (Normal (Some (body d), false, false), d)) ∨
  (runs_off_root d t ∧
     findScrollable t d = (Normal (None, false, false), d)) ∨
  (∃ k, hits_non_element d t k ∧ findScrollable t d = (TypeError, d)).
Proof.
  induction t as [|i p IH]; rewrite findScrollable_turn;
    (case_bool_decide as Hb;
     [right; left; exists 0%nat; split; [|by rewrite <- Hb];
      split; [lia|]; split; [intros j Hj; lia|done] |]);
    (destruct (elements d !! _) as [e|] eqn:He;
     [|right; right; right; exists 0%nat; split; [|done];
       split; [lia|]; split; [intros j Hj; lia|done]]);
    (destruct (contains (classList e) "scrollable") eqn:Hc;
     [left; exists 0%nat, e; split; [|done];
      split; [lia|]; split; [intros j Hj; by replace j with 0%nat by lia|];
      split; [intros j Hj; lia|]; split; [done|by apply contains_true] |]);
    apply contains_false in Hc.
  - right; right; left. split; [|done].
    intros j Hj. replace j with 0%nat by (simpl in Hj; lia).
    split; [done|]. by exists e.
  - assert (plain_element d (i :: p)) as Hp by (by exists e).
    simpl.
    destruct IH as [(k & e' & Hn & ->)|[(k & (Hl & Hpl & Hk) & ->)|
                   [(Hr & ->)|(k & (Hl & Hpl & Hk & Hnone) & ->)]]].
    + left. exists (S k), e'. split; [by apply nearest_marked_cons|done].
    + right; left. exists (S k). split; [|done].
      split; [simpl; lia|]. split; [by apply plain_below_cons|done].
    + right; right; left. split; [|done]. by apply plain_below_cons.
    + right; right; right. exists (S k). split; [|done].
      split; [simpl; lia|]. split; [by apply plain_below_cons|done].
Qed.

Lemma plain_not_marked d n e :
  plain_element d n → elements d !! n = Some e → "scrollable" ∈ classList e →
  False.
Proof. intros (e' & He' & Hno) He Hm. by simplify_eq. Qed.

Lemma plain_not_missing d n :
  plain_element d n → elements d !! n = None → False.
Proof. intros (e' & He' & _) He. by simplify_eq. Qed.

(** No two of the four ends can hold of the same chain. *)
Lemma marked_excludes_body d t k e k' :
  nearest_marked d t k e → stops_at_body d t k' → False.
Proof.
  intros (_ & Hbody & _ & He & Hm) (_ & Hpl & Hk').
  destruct (decide (k' ≤ k)%nat) as [Hle|Hgt]; [by apply (Hbody k')|].
  destruct (Hpl k) as [_ Hp]; [lia|]. by eapply plain_not_marked.
Qed.

Lemma marked_excludes_root d t k e :
  nearest_marked d t k e → runs_off_root d t → False.
Proof.
  intros (Hlen & _ & _ & He & Hm) Hpl.
  destruct (Hpl k) as [_ Hp]; [lia|]. by eapply plain_not_marked.
Qed.

Lemma marked_excludes_non_element d t k e k' :
  nearest_marked d t k e → hits_non_element d t k' → False.
Proof.
  intros (_ & _ & Hplain & He & Hm) (_ & Hpl & _ & Hnone).
  destruct (Nat.lt_trichotomy k' k) as [Hlt|[->|Hgt]].
  - by eapply plain_not_missing; [apply (Hplain k')|].
  - congruence.
  - destruct (Hpl k) as [_ Hp]; [lia|]. by eapply plain_not_marked.
Qed.

Lemma body_excludes_root d t k :
  stops_at_body d t k → runs_off_root d t → False.
Proof.
  intros (Hlen & _ & Hk) Hpl. destruct (Hpl k) as [Hb _]; [lia|done].
Qed.

Lemma body_excludes_non_element d t k k' :
  stops_at_body d t k → hits_non_element d t k' → False.
Proof.
  intros (_ & Hpl & Hk) (_ & Hpl' & Hb' & Hnone).
  destruct (Nat.lt_trichotomy k k') as [Hlt|[->|Hgt]].
  - destruct (Hpl' k) as [Hb _]; done.
  - done.
  - destruct (Hpl k') as [_ Hp]; [lia|]. by eapply plain_not_missing.
Qed.

Lemma root_excludes_non_element d t k :
  runs_off_root d t → hits_non_element d t k → False.
Proof.
  intros Hpl (Hlen & _ & _ & Hnone).
  destruct (Hpl k) as [_ Hp]; [lia|]. by eapply plain_not_missing.
Qed.

(** X1. Step 1 ends in exactly one of four ways, decided by the first node
    on the chain from the target that is not an unmarked element below the
    body. At a marked element the walk stops with the flags of that element;
    at the body it stops with both flags false; past the root the target
    ends as null with both flags false; at a node without a class list the
    walk throws. One of the four always applies, and each result occurs in
    its own case only. *)
Theorem walk_ends_in_one_of_four_ways (t : node) (d : Document) :
  ((∃ k e, nearest_marked d t k e) ∨ (∃ k, stops_at_body d t k) ∨
   runs_off_root d t ∨ (∃ k, hits_non_element d t k)) ∧
  (∀ k e, nearest_marked d t k e →
     findScrollable t d =
       (Normal (Some (ancestor k t),
                bool_decide (scrollHeight e > clientHeight e),
                bool_decide (scrollWidth e > clientWidth e)), d)) ∧
  ((∃ k, stops_at_body d t k) ↔
     findScrollable t d = (Normal (Some (body d), false, false), d)) ∧
  (runs_off_root d t ↔
     findScrollable t d = (Normal (None, false, false), d)) ∧
  ((∃ k, hits_non_element d t k) ↔ findScrollable t d = (TypeError, d)).
Proof.
  pose proof (findScrollable_ends t d) as Hends.
  split; [|split; [|split; [|split]]].
  - destruct Hends as [(k & e & Hn & _)|[(k & Hb & _)|[(Hr & _)|(k & Hh & _)]]];
      eauto 6.
  - intros k e Hn. by apply findScrollable_nearest.
  - split.
    + intros [k Hb].
      destruct Hends as [(k' & e & Hn & _)|[(_ & _ & ->)|[(Hr & _)|(k' & Hh & _)]]];
        [exfalso|done|exfalso|exfalso];
        eauto using marked_excludes_body, body_excludes_root,
          body_excludes_non_element.
    + intros Hres.
      destruct Hends as [(k' & e & Hn & Hr)|[(k' & Hb & _)|[(_ & Hr)|(k' & _ & Hr)]]];
        [|by eauto|congruence|congruence].
      rewrite Hr in Hres. injection Hres as Hm _ _.
      destruct Hn as (_ & Hbody & _). by destruct (Hbody k' (le_n _)).
  - split.
    + intros Hroot.
      destruct Hends as [(k' & e & Hn & _)|[(k' & Hb & _)|[(_ & ->)|(k' & Hh & _)]]];
        [exfalso|exfalso|done|exfalso];
        eauto using marked_excludes_root, body_excludes_root,
          root_excludes_non_element.
    + intros Hres.
      destruct Hends as [(k' & e & _ & Hr)|[(k' & _ & Hr)|[(Hroot & _)|(k' & _ & Hr)]]];
        (done || congruence).
  - split.
    + intros [k Hh].
      destruct Hends as [(k' & e & Hn & _)|[(k' & Hb & _)|[(Hr & _)|(_ & _ & ->)]]];
        [exfalso|exfalso|exfalso|done];
        eauto using marked_excludes_non_element, body_excludes_non_element,
          root_excludes_non_element.
    + intros Hres.
      destruct Hends as [(k' & e & _ & Hr)|[(k' & _ & Hr)|[(_ & Hr)|(k' & Hh & _)]]];
        (by eauto) || congruence.
Qed.

(** ** The guard: exceptions, writes, and what the gesture records *)

Lemma nearest_marked_unique d t k e k' e' :
  nearest_marked d t k e → nearest_marked d t k' e' → k = k' ∧ e = e'.
Proof.
  intros (_ & _ & Hplain & He & Hm) (_ & _ & Hplain' & He' & Hm').
  destruct (Nat.lt_trichotomy k k') as [Hlt|[->|Hgt]].
  - exfalso. eapply plain_not_marked; [by apply (Hplain' k)|done..].
  - split; [done|congruence].
  - exfalso. eapply plain_not_marked; [by apply (Hplain k')|done..].
Qed.

Lemma guard_unmarked event always d t' :
  locate (target event) d = (Normal (t', false, false), d) →
  let g := {| startY := 0; scrollStartedFromTop := false;
              hasVerticalScroll := false; hasHorizontalScroll := false;
              alwaysPreventPullToRefresh := always |} in
  preventScrollBugsIfNeeded event always d = (Normal g, registered g d).
Proof. intros Hl g. by rewrite (guard_run _ always _ _ _ _ Hl). Qed.

(** The ends of step 1, for the [target] of an event. *)
Lemma locate_ends event d :
  (∃ t k e, target event = Some t ∧ nearest_marked d t k e ∧
     locate (target event) d =
       (Normal (Some (ancestor k t),
                bool_decide (scrollHeight e > clientHeight e),
                bool_decide (scrollWidth e > clientWidth e)), d)) ∨
  ((∀ t, target event = Some t →
      (∃ k, stops_at_body d t k) ∨ runs_off_root d t) ∧
   ∃ t', locate (target event) d = (Normal (t', false, false), d)) ∨
  (∃ t k, target event = Some t ∧ hits_non_element d t k ∧
     locate (target event) d = (TypeError, d)).
Proof.
  destruct (target event) as [t|] eqn:Ht; simpl.
  - destruct (findScrollable_ends t d)
      as [(k & e & Hn & Hr)|[(k & Hb & Hr)|[(Hroot & Hr)|(k & Hh & Hr)]]].
    + left. by exists t, k, e.
    + right; left. split; [intros ? [= <-]; by eauto|by eexists].
    + right; left. split; [intros ? [= <-]; by eauto|by eexists].
    + right; right. by exists t, k.
  - right; left. split; [done|by eexists].
Qed.

(** Case analysis on a comparison the code makes. *)
Tactic Notation "split_on" constr(P) "as" ident(H) :=
  destruct (decide P) as [H|H];
  [rewrite ?(bool_decide_eq_true_2 P H)
  |rewrite ?(bool_decide_eq_false_2 P H)].

(** The guard at a target with a marked ancestor, case by case. *)
Lemma guard_at_marked event always d t k e :
  target event = Some t → nearest_marked d t k e →
  let m := ancestor k t in
  let gest y s :=
    {| startY := y; scrollStartedFromTop := s;
       hasVerticalScroll := bool_decide (scrollHeight e > clientHeight e);
       hasHorizontalScroll := bool_decide (scrollWidth e > clientWidth e);
       alwaysPreventPullToRefresh := always |} in
  let done_ y s d1 := (Normal (gest y s), registered (gest y s) d1) in
  preventScrollBugsIfNeeded event always d =
    if bool_decide (scrollHeight e > clientHeight e) then
      if bool_decide (scrollTop e = 0) then
        match touches event with
        | [] => (TypeError, d)
        | first :: _ => done_ (clientY first) true (scrolledTop m e 1 d)
        end
      else if bool_decide (scrollTop e = scrollHeight e - clientHeight e) then
        done_ 0 false
          (scrolledTop m e (scrollHeight e - clientHeight e - 1) d)
      else done_ 0 false d
    else if bool_decide (scrollWidth e > clientWidth e) then
      if bool_decide (scrollLeft e = 0) then
        done_ 0 false (scrolledLeft m e 1 d)
      else if bool_decide (scrollLeft e = scrollWidth e - clientWidth e) then
        done_ 0 false
          (scrolledLeft m e (scrollWidth e - clientWidth e - 1) d)
      else done_ 0 false d
    else done_ 0 false d.
Proof.
  intros Ht Hn m gest done_. subst m gest done_.
  rewrite (guard_run _ always _ _ _ _ (locate_nearest _ _ _ _ _ Ht Hn)).
  destruct Hn as (_ & _ & _ & He & _).
  rewrite (edgeFix_run _ _ _ _ _ _ He).
  split_on (scrollHeight e > clientHeight e) as Hv.
  - split_on (scrollTop e = 0) as H0; [by destruct (touches event)|].
    by split_on (scrollTop e = scrollHeight e - clientHeight e) as Hmax.
  - split_on (scrollWidth e > clientWidth e) as Hw; [|done].
    split_on (scrollLeft e = 0) as H0; [done|].
    by split_on (scrollLeft e = scrollWidth e - clientWidth e) as Hmax.
Qed.

(** X2. The guard throws in two situations and no other: the walk from the
    target reaches a node without a class list before it reaches a marked
    element or the body, or the event has no touch point while the nearest
    marked ancestor has vertical scroll and is at offset 0. Whenever it
    throws, the state is exactly as before the call: no offset written, no
    listener registered. *)
Theorem guard_throws_exactly_when
    (event : TouchEvent) (always : bool) (d : Document) :
  ((preventScrollBugsIfNeeded event always d).1 = TypeError ↔
   ∃ t, target event = Some t ∧
     ((∃ k, hits_non_element d t k) ∨
      (touches event = [] ∧
       ∃ k e, nearest_marked d t k e ∧
              scrollHeight e > clientHeight e ∧ scrollTop e = 0))) ∧
  ((preventScrollBugsIfNeeded event always d).1 = TypeError →
   (preventScrollBugsIfNeeded event always d).2 = d).
Proof.
  destruct (locate_ends event d)
    as [(t & k & e & Ht & Hn & Hl)|[(Hways & t' & Hl)|(t & k & Ht & Hh & Hl)]].
  - rewrite (guard_at_marked _ always _ _ _ _ Ht Hn).
    assert (∀ P : Prop,
      (∃ t0, target event = Some t0 ∧
         ((∃ k0, hits_non_element d t0 k0) ∨
          (touches event = [] ∧
           ∃ k0 e0, nearest_marked d t0 k0 e0 ∧
                    scrollHeight e0 > clientHeight e0 ∧ scrollTop e0 = 0))) →
      (touches event = [] → scrollHeight e > clientHeight e →
       scrollTop e = 0 → P) → P) as Hinv.
    { intros P (t0 & Ht0 & [[k0 Hh]|(Hemp & k0 & e0 & Hn0 & Hv0 & H00)]) HP;
        assert (t0 = t) as -> by congruence.
      - exfalso. by eapply marked_excludes_non_element.
      - destruct (nearest_marked_unique _ _ _ _ _ _ Hn Hn0) as [-> ->].
        by apply HP. }
    assert (∀ (r : Completion Gesture * Document),
      r.1 ≠ TypeError →
      (touches event = [] → scrollHeight e > clientHeight e →
       scrollTop e = 0 → False) →
      (r.1 = TypeError ↔
       ∃ t0, target event = Some t0 ∧
         ((∃ k0, hits_non_element d t0 k0) ∨
          (touches event = [] ∧
           ∃ k0 e0, nearest_marked d t0 k0 e0 ∧
                    scrollHeight e0 > clientHeight e0 ∧ scrollTop e0 = 0))) ∧
      (r.1 = TypeError → r.2 = d)) as Hok.
    { intros r Hr Hno. split; [split|]; [done| |done].
      intros Hc. exfalso. by apply (Hinv False Hc). }
    split_on (scrollHeight e > clientHeight e) as Hv.
    + split_on (scrollTop e = 0) as H0.
      * destruct (touches event) as [|first rest] eqn:Htouch.
        -- split; [|done]. split; [|done]. intros _.
           exists t. split; [done|]. right. split; [done|]. by exists k, e.
        -- by apply Hok.
      * split_on (scrollTop e = scrollHeight e - clientHeight e) as Hmax;
          by apply Hok.
    + split_on (scrollWidth e > clientWidth e) as Hw; [|by apply Hok].
      split_on (scrollLeft e = 0) as H0; [by apply Hok|].
      split_on (scrollLeft e = scrollWidth e - clientWidth e) as Hmax;
        by apply Hok.
  - rewrite (guard_unmarked _ always _ _ Hl). simpl.
    split; [|done]. split; [done|].
    intros (t & Ht & [[k Hh]|(_ & k & e & Hn & _)]); exfalso;
      destruct (Hways t Ht) as [[k' Hb]|Hroot];
      eauto using body_excludes_non_element, root_excludes_non_element,
        marked_excludes_body, marked_excludes_root.
  - rewrite (guard_throw _ always _ _ Hl). simpl.
    split; [|done]. split; [|done]. intros _. exists t. by eauto.
Qed.

(** The eight paths through step 2 at an element [e], for [touches event]. *)
Ltac step2_paths e event :=
  split_on (scrollHeight e > clientHeight e) as Hv;
  [split_on (scrollTop e = 0) as H0;
   [destruct (touches event) as [|first rest] eqn:Htouch
   |split_on (scrollTop e = scrollHeight e - clientHeight e) as Hmax]
  |split_on (scrollWidth e > clientWidth e) as Hw;
   [split_on (scrollLeft e = 0) as H0;
    [|split_on (scrollLeft e = scrollWidth e - clientWidth e) as Hmax]
   |]].

(** Every run of the guard is one of these three. *)
Lemma guard_ends event always d :
  (∃ t k e, target event = Some t ∧ nearest_marked d t k e) ∨
  (let g := {| startY := 0; scrollStartedFromTop := false;
               hasVerticalScroll := false; hasHorizontalScroll := false;
               alwaysPreventPullToRefresh := always |} in
   preventScrollBugsIfNeeded event always d = (Normal g, registered g d)) ∨
  preventScrollBugsIfNeeded event always d = (TypeError, d).
Proof.
  destruct (locate_ends event d)
    as [(t & k & e & Ht & Hn & _)|[(_ & t' & Hl)|(t & k & _ & _ & Hl)]].
  - left. by exists t, k, e.
  - right; left. by apply guard_unmarked with t'.
  - right; right. by apply guard_throw with d.
Qed.

(** X3. Whatever the event and the document, the guard writes at most one
    property of one element: [scrollTop] of the nearest marked ancestor of
    the target when that element has vertical scroll, [scrollLeft] of it
    when it has horizontal scroll only, and the value written is 1 or the
    maximum offset minus one. Every other element, and every other property
    of that element, is as before. *)
Theorem guard_writes_only_the_nearest_marked_ancestor
    (event : TouchEvent) (always : bool) (d : Document) :
  let d1 := (preventScrollBugsIfNeeded event always d).2 in
  elements d1 = elements d ∨
  ∃ t k e,
    target event = Some t ∧ nearest_marked d t k e ∧
    ((scrollHeight e > clientHeight e ∧
      ∃ x, (x = 1 ∨ x = scrollHeight e - clientHeight e - 1) ∧
           elements d1 = <[ancestor k t := set_scrollTop x e]> (elements d)) ∨
     (¬ scrollHeight e > clientHeight e ∧ scrollWidth e > clientWidth e ∧
      ∃ x, (x = 1 ∨ x = scrollWidth e - clientWidth e - 1) ∧
           elements d1 = <[ancestor k t := set_scrollLeft x e]> (elements d))).
Proof.
  intros d1. subst d1.
  destruct (guard_ends event always d) as [(t & k & e & Ht & Hn)|[->| ->]];
    [|by left..].
  rewrite (guard_at_marked _ always _ _ _ _ Ht Hn).
  step2_paths e event; try (by left); right; exists t, k, e;
    (split; [done|]); (split; [done|]).
  - left. split; [done|]. exists 1. by auto.
  - left. split; [done|]. eexists. by eauto.
  - right. split; [done|]. split; [done|]. exists 1. by auto.
  - right. split; [done|]. split; [done|]. eexists. by eauto.
Qed.

(** X4. The guard never moves the focus, never calls [blur()] and never runs
    the keyboard dismisser, and it leaves [document.body] alone; when it
    completes it has created exactly one pair of handlers. *)
Theorem guard_leaves_focus_alone
    (event : TouchEvent) (always : bool) (d : Document) :
  let r := preventScrollBugsIfNeeded event always d in
  body r.2 = body d ∧ activeElement r.2 = activeElement d ∧
  blurred r.2 = blurred d ∧ dismisserCalls r.2 = dismisserCalls d ∧
  functionsCreated r.2 =
    match r.1 with
    | Normal _ => S (functionsCreated d)
    | TypeError => functionsCreated d
    end.
Proof.
  intros r. subst r.
  destruct (guard_ends event always d) as [(t & k & e & Ht & Hn)|[->| ->]];
    [|done..].
  rewrite (guard_at_marked _ always _ _ _ _ Ht Hn).
  step2_paths e event; done.
Qed.

(** X5. What a completed guard recorded can be read back. A gesture marked
    as started from the top has vertical scroll, its nearest marked ancestor
    was at offset 0 and [startY] is the Y of the first touch point of the
    touchstart; otherwise [startY] is 0. A gesture with a scroll flag set has
    a marked ancestor below the body, and its flags are the two comparisons
    on that element. The always-prevent flag is the argument of the call. *)
Theorem gesture_records_the_touchstart
    (event : TouchEvent) (always : bool) (d : Document)
    (g : Gesture) (d1 : Document) :
  preventScrollBugsIfNeeded event always d = (Normal g, d1) →
  alwaysPreventPullToRefresh g = always ∧
  (scrollStartedFromTop g = false → startY g = 0) ∧
  (scrollStartedFromTop g = true →
   hasVerticalScroll g = true ∧
   ∃ t k e first rest,
     target event = Some t ∧ nearest_marked d t k e ∧ scrollTop e = 0 ∧
     touches event = first :: rest ∧ startY g = clientY first) ∧
  (hasVerticalScroll g = true ∨ hasHorizontalScroll g = true →
   ∃ t k e,
     target event = Some t ∧ nearest_marked d t k e ∧
     hasVerticalScroll g = bool_decide (scrollHeight e > clientHeight e) ∧
     hasHorizontalScroll g = bool_decide (scrollWidth e > clientWidth e)).
Proof.
  destruct (guard_ends event always d) as [(t & k & e & Ht & Hn)|[->| ->]].
  - rewrite (guard_at_marked _ always _ _ _ _ Ht Hn).
    step2_paths e event; intros Heq; simplify_eq; simpl;
      (split; [done|]); (split; [done|]);
      (split;
       [try done
       |intros _; exists t, k, e; (split; [done|]); (split; [done|]);
        split; (done || (symmetry;
        (by apply bool_decide_eq_true_2) || (by apply bool_decide_eq_false_2)))]).
    intros _. split; [done|]. by exists t, k, e, first, rest.
  - intros [= <- <-]. simpl. repeat split; try done. by intros [|].
  - done.
Qed.

Lemma gesture_records_the_touchstart_witness :
  ∃ t k e first rest,
    target (Sample.touchAt Sample.item [40]) = Some t ∧
    nearest_marked (Sample.page 0) t k e ∧ scrollTop e = 0 ∧
    touches (Sample.touchAt Sample.item [40]) = first :: rest ∧
    40 = clientY first.
Proof.
  apply (proj2 (proj1 (proj2 (proj2
    (gesture_records_the_touchstart
       (Sample.touchAt Sample.item [40]) false (Sample.page 0)
       {| startY := 40; scrollStartedFromTop := true;
          hasVerticalScroll := true; hasHorizontalScroll := false;
          alwaysPreventPullToRefresh := false |}
       (preventScrollBugsIfNeeded
          (Sample.touchAt Sample.item [40]) false (Sample.page 0)).2
       ltac:(vm_compute; reflexivity)))) eq_refl)).
Defined.

(** ** The touchmove handler as a whole *)

Lemma suppress_result_differs event d :
  (Normal (stopPropagation (preventDefault event)), (hideKeyboradIfNeeded d).2)
  ≠ (Normal event, d).
Proof.
  intros Heq. destruct (hideKeyborad_frame d) as (_ & _ & _ & Hc).
  injection Heq as _ Hd. rewrite Hd in Hc. lia.
Qed.

(** The handler in one expression. *)
Lemma onTouchMove_run g move d :
  onTouchMove g move d =
    if hasVerticalScroll g && scrollStartedFromTop g then
      match touches move with
      | [] => (TypeError, d)
      | p :: _ =>
        if bool_decide (clientY p > startY g)
        then (Normal (stopPropagation (preventDefault move)),
              (hideKeyboradIfNeeded d).2)
        else (Normal move, d)
      end
    else if alwaysPreventPullToRefresh g
            && negb (hasVerticalScroll g) && negb (hasHorizontalScroll g)
    then (Normal (stopPropagation (preventDefault move)),
          (hideKeyboradIfNeeded d).2)
    else (Normal move, d).
Proof.
  destruct (hasVerticalScroll g && scrollStartedFromTop g) eqn:Htop.
  - apply andb_true_iff in Htop as [Hv Hs]. by apply onTouchMove_top.
  - unfold onTouchMove. rewrite Htop. apply alwaysPreventBranch_run.
Qed.

(** X6. The touchmove handler has three outcomes and the gesture and the
    event decide which. It suppresses the event exactly in two cases: the
    gesture started from the top of a vertical scroller and the first touch
    point is below the start, or the gesture has no scroll flag and
    always-prevent is set. It throws exactly when the gesture started from
    the top of a vertical scroller and the event has no touch point, and
    then the state is as before. In every other case it changes nothing. *)
Theorem touchmove_handler_outcomes
    (g : Gesture) (move : TouchEvent) (d : Document) :
  let top := hasVerticalScroll g && scrollStartedFromTop g in
  (suppressed (onTouchMove g move) move d ↔
   (top = true ∧ ∃ p ps, touches move = p :: ps ∧ clientY p > startY g) ∨
   (top = false ∧ alwaysPreventPullToRefresh g = true ∧
    hasVerticalScroll g = false ∧ hasHorizontalScroll g = false)) ∧
  (onTouchMove g move d = (TypeError, d) ↔ top = true ∧ touches move = []) ∧
  ((onTouchMove g move d).1 = TypeError → onTouchMove g move d = (TypeError, d)) ∧
  (suppressed (onTouchMove g move) move d ∨
   untouched (onTouchMove g move) move d ∨
   onTouchMove g move d = (TypeError, d)).
Proof.
  intros top. subst top. unfold suppressed, untouched.
  rewrite onTouchMove_run.
  pose proof (suppress_result_differs move d) as Hdiff.
  destruct (hasVerticalScroll g && scrollStartedFromTop g) eqn:Htop.
  - destruct (touches move) as [|p ps] eqn:Hm.
    + split; [split; [done|]|].
      * intros [(_ & p & ps & Hc & _)|(Hc & _)]; done.
      * split; [done|]. split; [done|]. by auto.
    + split_on (clientY p > startY g) as Hy.
      * split; [split; [intros _; left; by eauto|done]|].
        split; [split; [done|by intros [_ ?]]|]. split; [done|by left].
      * split; [split|].
        -- intros Hc. by destruct Hdiff.
        -- intros [(_ & p' & ps' & [= <- <-] & Hgt)|(Hc & _)]; done.
        -- split; [split; [done|by intros [_ ?]]|]. split; [done|by auto].
  - destruct (alwaysPreventPullToRefresh g
              && negb (hasVerticalScroll g) && negb (hasHorizontalScroll g))
      eqn:Hcond.
    + apply andb_true_iff in Hcond as [[Ha Hv]%andb_true_iff Hh].
      apply negb_true_iff in Hv, Hh.
      split; [split; [intros _; by right|done]|].
      split; [split; [done|by intros [? _]]|]. split; [done|by left].
    + split; [split|].
      * intros Hc. symmetry in Hc. by destruct Hdiff.
      * intros [(Hc & _)|(_ & Ha & Hv & Hh)]; [done|].
        by rewrite Ha, Hv, Hh in Hcond.
      * split; [split; [done|by intros [? _]]|]. split; [done|by auto].
Qed.

(** X7. The early [return] after the top-start branch hides nothing: running
    the always-prevent branch after it, on the event and the state it left,
    gives the same result. Whenever the first branch is entered the second
    one would do nothing, because it needs a gesture without vertical
    scroll. *)
Theorem early_return_hides_nothing
    (g : Gesture) (move : TouchEvent) (d : Document) :
  onTouchMove g move d =
    ((if hasVerticalScroll g && scrollStartedFromTop g
      then topStartBranch g move else mret move)
     ≫= alwaysPreventBranch g) d ∧
  (hasVerticalScroll g && scrollStartedFromTop g = true →
   ∀ move' d', untouched (alwaysPreventBranch g move') move' d').
Proof.
  assert (hasVerticalScroll g && scrollStartedFromTop g = true →
          ∀ move' d', alwaysPreventBranch g move' d' = (Normal move', d'))
    as Hidle.
  { intros [Hv _]%andb_true_iff move' d'.
    rewrite alwaysPreventBranch_run, Hv. by rewrite andb_false_r. }
  split; [|done].
  unfold onTouchMove.
  destruct (hasVerticalScroll g && scrollStartedFromTop g) eqn:Htop; [|done].
  destruct (topStartBranch g move d) as [[move'|] d'] eqn:Hb.
  - rewrite (bind_normal _ _ _ _ _ Hb). symmetry. by apply Hidle.
  - by rewrite (bind_throw _ _ _ _ Hb).
Qed.

(** ** What the nudge achieves *)

Lemma ancestor_length k t : (k ≤ length t)%nat →
  length (ancestor k t) = (length t - k)%nat.
Proof. intros _. unfold ancestor. by rewrite length_drop. Qed.

Lemma ancestor_differs j k t :
  (j < k)%nat → (k ≤ length t)%nat → ancestor j t ≠ ancestor k t.
Proof.
  intros Hj Hk Heq. apply (f_equal length) in Heq.
  rewrite !ancestor_length in Heq by lia. lia.
Qed.

(** A write to an offset of the nearest marked ancestor keeps it the nearest
    marked ancestor. *)
Lemma nearest_marked_after_write d d' t k e e' :
  body d' = body d →
  elements d' = <[ancestor k t := e']> (elements d) →
  classList e' = classList e →
  nearest_marked d t k e → nearest_marked d' t k e'.
Proof.
  intros Hb Hel Hcl (Hlen & Hbody & Hplain & He & Hm).
  split; [done|]. split; [intros j Hj; rewrite Hb; by apply Hbody|].
  split.
  - intros j Hj. destruct (Hplain j Hj) as (ej & Hej & Hno).
    exists ej. split; [|done]. rewrite Hel, lookup_insert_ne; [done|].
    apply not_eq_sym. by apply ancestor_differs.
  - rewrite Hel, lookup_insert_eq, Hcl. done.
Qed.

Lemma nearest_marked_same_elements d d' t k e :
  body d' = body d → elements d' = elements d →
  nearest_marked d t k e → nearest_marked d' t k e.
Proof.
  intros Hb Hel (Hlen & Hbody & Hplain & He & Hm).
  split; [done|]. split; [intros j Hj; rewrite Hb; by apply Hbody|].
  split; [|by rewrite Hel].
  intros j Hj. destruct (Hplain j Hj) as (ej & Hej & Hno).
  exists ej. by rewrite Hel.
Qed.

(** The element at the nearest marked ancestor after a completed guard. *)
Lemma guard_result_at_marked event always d t k e g d1 :
  target event = Some t → nearest_marked d t k e →
  preventScrollBugsIfNeeded event always d = (Normal g, d1) →
  body d1 = body d ∧
  ∃ e', nearest_marked d1 t k e' ∧
    scrollHeight e' = scrollHeight e ∧ clientHeight e' = clientHeight e ∧
    scrollWidth e' = scrollWidth e ∧ clientWidth e' = clientWidth e ∧
    (scrollHeight e > clientHeight e →
     scrollLeft e' = scrollLeft e ∧
     scrollTop e' =
       if bool_decide (scrollTop e = 0) then 1
       else if bool_decide (scrollTop e = scrollHeight e - clientHeight e)
            then scrollHeight e - clientHeight e - 1
            else scrollTop e) ∧
    (¬ scrollHeight e > clientHeight e →
     scrollTop e' = scrollTop e ∧
     scrollLeft e' =
       if bool_decide (scrollWidth e > clientWidth e) then
         if bool_decide (scrollLeft e = 0) then 1
         else if bool_decide (scrollLeft e = scrollWidth e - clientWidth e)
              then scrollWidth e - clientWidth e - 1
              else scrollLeft e
       else scrollLeft e).
Proof.
  intros Ht Hn. rewrite (guard_at_marked _ always _ _ _ _ Ht Hn).
  step2_paths e event; intros Heq; simplify_eq; (split; [done|]);
    try (exists e; split;
         [by apply (nearest_marked_same_elements d)|by repeat split]).
  - exists (set_scrollTop 1 e).
    split; [by apply (nearest_marked_after_write d _ _ _ e)|by repeat split].
  - exists (set_scrollTop (scrollHeight e - clientHeight e - 1) e).
    split; [by apply (nearest_marked_after_write d _ _ _ e)|by repeat split].
  - exists (set_scrollLeft 1 e).
    split; [by apply (nearest_marked_after_write d _ _ _ e)|by repeat split].
  - exists (set_scrollLeft (scrollWidth e - clientWidth e - 1) e).
    split; [by apply (nearest_marked_after_write d _ _ _ e)|by repeat split].
Qed.

(** X8. After a completed guard the nearest marked ancestor is at neither
    end of the axis the guard handles, provided the scroll range on that
    axis is not exactly one pixel: with vertical scroll its [scrollTop] is
    neither 0 nor [scrollHeight - clientHeight]; with horizontal scroll only,
    the same holds of [scrollLeft] and the widths. Its size and class list
    are as before. *)
Theorem nudge_leaves_both_edges
    (event : TouchEvent) (always : bool) (d : Document)
    (t : node) (k : nat) (e : Element) (g : Gesture) (d1 : Document) :
  target event = Some t →
  nearest_marked d t k e →
  preventScrollBugsIfNeeded event always d = (Normal g, d1) →
  ∃ e', nearest_marked d1 t k e' ∧
    scrollHeight e' = scrollHeight e ∧ clientHeight e' = clientHeight e ∧
    scrollWidth e' = scrollWidth e ∧ clientWidth e' = clientWidth e ∧
    (scrollHeight e > clientHeight e →
     scrollHeight e - clientHeight e ≠ 1 →
     scrollTop e' ≠ 0 ∧ scrollTop e' ≠ scrollHeight e' - clientHeight e') ∧
    (¬ scrollHeight e > clientHeight e → scrollWidth e > clientWidth e →
     scrollWidth e - clientWidth e ≠ 1 →
     scrollLeft e' ≠ 0 ∧ scrollLeft e' ≠ scrollWidth e' - clientWidth e').
Proof.
  intros Ht Hn Hg.
  destruct (guard_result_at_marked _ _ _ _ _ _ _ _ Ht Hn Hg)
    as (_ & e' & Hn' & Hsh & Hch & Hsw & Hcw & Hvert & Hhor).
  exists e'. repeat (split; [done|]). rewrite Hsh, Hch, Hsw, Hcw. split.
  - intros Hv Hrange. destruct (Hvert Hv) as [_ ->].
    repeat case_bool_decide; lia.
  - intros Hv Hw Hrange. destruct (Hhor Hv) as [_ ->].
    rewrite (bool_decide_eq_true_2 _ Hw). repeat case_bool_decide; lia.
Qed.

Lemma nudge_leaves_both_edges_witness :
  ∃ e', nearest_marked
          (preventScrollBugsIfNeeded
             (Sample.touchAt Sample.item [40]) false (Sample.page 300)).2
          Sample.item 1 e' ∧
        scrollTop e' ≠ 0 ∧ scrollTop e' ≠ scrollHeight e' - clientHeight e'.
Proof.
  destruct (nudge_leaves_both_edges
              (Sample.touchAt Sample.item [40]) false (Sample.page 300)
              Sample.item 1
              (Sample.div ["scrollable"] 300 0 500 200 400 400)
              {| startY := 0; scrollStartedFromTop := false;
                 hasVerticalScroll := true; hasHorizontalScroll := false;
                 alwaysPreventPullToRefresh := false |}
              (preventScrollBugsIfNeeded
                 (Sample.touchAt Sample.item [40]) false (Sample.page 300)).2
              eq_refl ltac:(solve_nearest) ltac:(vm_compute; reflexivity))
    as (e' & Hn & _ & _ & _ & _ & Hv & _).
  exists e'. split; [exact Hn|].
  apply Hv; simpl; lia.
Defined.

(** X9. When the vertical scroll range is exactly one pixel the nudge only
    changes the edge: from offset 0 the element ends at its maximum offset 1,
    and from offset 1 it ends at 0. *)
Theorem one_pixel_range_swaps_the_edge
    (event : TouchEvent) (always : bool) (d : Document)
    (t : node) (k : nat) (e : Element) (g : Gesture) (d1 : Document) :
  target event = Some t →
  nearest_marked d t k e →
  scrollHeight e - clientHeight e = 1 →
  preventScrollBugsIfNeeded event always d = (Normal g, d1) →
  ∃ e', elements d1 !! ancestor k t = Some e' ∧
    scrollHeight e' - clientHeight e' = 1 ∧
    (scrollTop e = 0 → scrollTop e' = 1) ∧
    (scrollTop e = 1 → scrollTop e' = 0).
Proof.
  intros Ht Hn Hrange Hg.
  destruct (guard_result_at_marked _ _ _ _ _ _ _ _ Ht Hn Hg)
    as (_ & e' & Hn' & Hsh & Hch & _ & _ & Hvert & _).
  exists e'. split; [by destruct Hn' as (_ & _ & _ & ? & _)|].
  split; [lia|]. destruct Hvert as [_ ->]; [lia|].
  split; intros H0; repeat case_bool_decide; lia.
Qed.

Lemma one_pixel_range_swaps_the_edge_witness :
  ∃ e',
    elements
      (preventScrollBugsIfNeeded
         (Sample.touchAt Sample.item [40]) false
         (with_elements
            (λ els, <[Sample.list_ :=
                        Sample.div ["scrollable"] 1 0 201 200 400 400]> els)
            (Sample.page 0))).2
    !! Sample.list_ = Some e' ∧
    scrollTop e' = 0.
Proof.
  destruct (one_pixel_range_swaps_the_edge
              (Sample.touchAt Sample.item [40]) false
              (with_elements
                 (λ els, <[Sample.list_ :=
                             Sample.div ["scrollable"] 1 0 201 200 400 400]> els)
                 (Sample.page 0))
              Sample.item 1
              (Sample.div ["scrollable"] 1 0 201 200 400 400)
              {| startY := 0; scrollStartedFromTop := false;
                 hasVerticalScroll := true; hasHorizontalScroll := false;
                 alwaysPreventPullToRefresh := false |}
              (preventScrollBugsIfNeeded
                 (Sample.touchAt Sample.item [40]) false
                 (with_elements
                    (λ els, <[Sample.list_ :=
                                Sample.div ["scrollable"] 1 0 201 200 400 400]> els)
                    (Sample.page 0))).2
              eq_refl ltac:(solve_nearest) eq_refl
              ltac:(vm_compute; reflexivity))
    as (e' & He' & _ & _ & H1).
  exists e'. split; [exact He'|]. apply H1. reflexivity.
Defined.

(** X10. A second touchstart on the same target nudges nothing: after a
    completed guard, and with no scroll range of exactly one pixel on the
    marked ancestor, another call on a document with the same elements
    completes, leaves every element as it is, does not read a touch point
    and does not mark its gesture as started from the top. *)
Theorem second_touchstart_writes_nothing
    (event : TouchEvent) (always : bool) (d : Document)
    (t : node) (k : nat) (e : Element) (g : Gesture) (d1 : Document) :
  target event = Some t →
  nearest_marked d t k e →
  scrollHeight e - clientHeight e ≠ 1 →
  scrollWidth e - clientWidth e ≠ 1 →
  preventScrollBugsIfNeeded event always d = (Normal g, d1) →
  ∀ (event2 : TouchEvent) (always2 : bool) (d2 : Document),
    target event2 = Some t →
    elements d2 = elements d1 → body d2 = body d1 →
    ∃ g2, preventScrollBugsIfNeeded event2 always2 d2
            = (Normal g2, registered g2 d2) ∧
          scrollStartedFromTop g2 = false ∧
          hasVerticalScroll g2 = hasVerticalScroll g ∧
          hasHorizontalScroll g2 = hasHorizontalScroll g.
Proof.
  intros Ht Hn Hrv Hrh Hg event2 always2 d2 Ht2 Hel Hb.
  destruct (guard_result_at_marked _ _ _ _ _ _ _ _ Ht Hn Hg)
    as (_ & e' & Hn' & Hsh & Hch & Hsw & Hcw & Hvert & Hhor).
  pose proof (nearest_marked_same_elements d1 d2 t k e' Hb Hel Hn') as Hn2.
  rewrite (guard_at_marked _ always2 _ _ _ _ Ht2 Hn2).
  rewrite Hsh, Hch, Hsw, Hcw.
  assert (hasVerticalScroll g = bool_decide (scrollHeight e > clientHeight e) ∧
          hasHorizontalScroll g = bool_decide (scrollWidth e > clientWidth e))
    as [Hgv Hgh].
  { revert Hg. rewrite (guard_at_marked _ always _ _ _ _ Ht Hn).
    split_on (scrollHeight e > clientHeight e) as Hv;
      [|split_on (scrollWidth e > clientWidth e) as Hw];
      repeat case_bool_decide; try destruct (touches event);
      intros Heq; by simplify_eq. }
  rewrite Hgv, Hgh.
  split_on (scrollHeight e > clientHeight e) as Hv.
  - destruct (Hvert Hv) as [_ Htop].
    assert (scrollTop e' ≠ 0 ∧ scrollTop e' ≠ scrollHeight e - clientHeight e)
      as [H0 Hmax] by (rewrite Htop; repeat case_bool_decide; lia).
    rewrite !bool_decide_eq_false_2 by done. by eexists.
  - destruct (Hhor Hv) as [_ Hleft].
    split_on (scrollWidth e > clientWidth e) as Hw; [|by eexists].
    rewrite (bool_decide_eq_true_2 _ Hw) in Hleft.
    assert (scrollLeft e' ≠ 0 ∧ scrollLeft e' ≠ scrollWidth e - clientWidth e)
      as [H0 Hmax] by (rewrite Hleft; repeat case_bool_decide; lia).
    rewrite !bool_decide_eq_false_2 by done. by eexists.
Qed.

Lemma second_touchstart_writes_nothing_witness :
  let d1 := (preventScrollBugsIfNeeded
               (Sample.touchAt Sample.item [40]) false (Sample.page 0)).2 in
  ∃ g2, preventScrollBugsIfNeeded (Sample.touchAt Sample.item []) true d1
          = (Normal g2, registered g2 d1) ∧
        scrollStartedFromTop g2 = false ∧
        hasVerticalScroll g2 = true ∧ hasHorizontalScroll g2 = false.
Proof.
  intros d1.
  apply (second_touchstart_writes_nothing
           (Sample.touchAt Sample.item [40]) false (Sample.page 0)
           Sample.item 1
           (Sample.div ["scrollable"] 0 0 500 200 400 400)
           {| startY := 40; scrollStartedFromTop := true;
              hasVerticalScroll := true; hasHorizontalScroll := false;
              alwaysPreventPullToRefresh := false |}
           d1
           eq_refl ltac:(solve_nearest) ltac:(simpl; lia) ltac:(simpl; lia)
           ltac:(vm_compute; reflexivity)
           (Sample.touchAt Sample.item []) true d1 eq_refl eq_refl eq_refl).
Defined.

(** ** Which parts of an event are read *)

Lemma firstTouchY_head event1 event2 :
  head (touches event1) = head (touches event2) →
  firstTouchY event1 = firstTouchY event2.
Proof.
  unfold firstTouchY.
  destruct (touches event1), (touches event2); simpl; congruence.
Qed.

(** X11. Of a touchstart event the guard reads the target and the first
    touch point only: two events that agree on both give the same gesture
    and the same state, whatever their other touch points. Of a touchmove
    event the handler reads the first touch point only: two events that
    agree on it leave the same state and are suppressed, left alone or
    answered by an exception alike. *)
Theorem only_the_first_touch_point_is_read
    (always : bool) (d : Document) :
  (∀ event1 event2,
     target event1 = target event2 →
     head (touches event1) = head (touches event2) →
     preventScrollBugsIfNeeded event1 always d
     = preventScrollBugsIfNeeded event2 always d) ∧
  (∀ g move1 move2,
     head (touches move1) = head (touches move2) →
     (onTouchMove g move1 d).2 = (onTouchMove g move2 d).2 ∧
     (suppressed (onTouchMove g move1) move1 d ↔
      suppressed (onTouchMove g move2) move2 d) ∧
     ((onTouchMove g move1 d).1 = TypeError ↔
      (onTouchMove g move2 d).1 = TypeError)).
Proof.
  split.
  - intros event1 event2 Ht Hh.
    unfold preventScrollBugsIfNeeded, edgeFix.
    by rewrite Ht, (firstTouchY_head _ _ Hh).
  - intros g move1 move2 Hh. unfold suppressed.
    rewrite !onTouchMove_run.
    pose proof (suppress_result_differs move1 d) as Hd1.
    pose proof (suppress_result_differs move2 d) as Hd2.
    destruct (hasVerticalScroll g && scrollStartedFromTop g).
    + destruct (touches move1) as [|p1 ps1], (touches move2) as [|p2 ps2];
        simpl in Hh; try done.
      injection Hh as ->.
      split_on (clientY p2 > startY g) as Hy; [done|].
      split; [done|]. split; [|done].
      split; intros Hc; symmetry in Hc; done.
    + destruct (_ && _ && _); [done|].
      split; [done|]. split; [|done].
      split; intros Hc; symmetry in Hc; done.
Qed.

(** ** Handlers *)

Lemma hideKeyborad_keeps d :
  elements (hideKeyboradIfNeeded d).2 = elements d ∧
  bodyListeners (hideKeyboradIfNeeded d).2 = bodyListeners d ∧
  functionsCreated (hideKeyboradIfNeeded d).2 = functionsCreated d ∧
  body (hideKeyboradIfNeeded d).2 = body d.
Proof.
  rewrite hideKeyborad_run.
  destruct (activeElement d) as [n|]; [|done].
  destruct (elements d !! n) as [e|]; [|done].
  by destruct (wants_blur e).
Qed.

Lemma onTouchMove_keeps g move d :
  elements (onTouchMove g move d).2 = elements d ∧
  bodyListeners (onTouchMove g move d).2 = bodyListeners d ∧
  functionsCreated (onTouchMove g move d).2 = functionsCreated d ∧
  body (onTouchMove g move d).2 = body d.
Proof.
  rewrite onTouchMove_run. pose proof (hideKeyborad_keeps d) as Hk.
  destruct (hasVerticalScroll g && scrollStartedFromTop g).
  - destruct (touches move) as [|p ps]; [done|]. by case_bool_decide.
  - by destruct (_ && _ && _).
Qed.

Lemma onTouchEnd_run id g d :
  onTouchEnd id g d =
    (Normal tt,
     with_listeners
       (λ ls, remove_listener
                {| l_type := touchend; l_callback := endCallback id g;
                   l_capture := false |}
                (remove_listener
                   {| l_type := touchmove; l_callback := moveCallback id g;
                      l_capture := false |} ls)) d).
Proof. done. Qed.

(** X12. Neither handler writes to an element, so the nudge of the guard is
    never undone. The touchmove handler changes nothing but the focus (and
    that only by the dismisser); the touchend handler never throws, changes
    nothing but the listener list of the body, and only removes from it. *)
Theorem handlers_never_scroll
    (g : Gesture) (id : nat) (move : TouchEvent) (d : Document) :
  (elements (onTouchMove g move d).2 = elements d ∧
   bodyListeners (onTouchMove g move d).2 = bodyListeners d ∧
   body (onTouchMove g move d).2 = body d) ∧
  ∃ ls, onTouchEnd id g d = (Normal tt, with_listeners (λ _, ls) d) ∧
        (∀ l, l ∈ ls → l ∈ bodyListeners d) ∧
        (length ls ≤ length (bodyListeners d))%nat.
Proof.
  split; [by destruct (onTouchMove_keeps g move d) as (? & ? & _ & ?)|].
  rewrite onTouchEnd_run. eexists. split; [done|]. split.
  - intros l Hl. by do 2 apply remove_listener_subset in Hl.
  - assert (∀ l ls, (length (remove_listener l ls) ≤ length ls)%nat) as Hlen.
    { intros l ls. induction ls as [|x ls IH]; simpl; [done|].
      destruct (same_listener l x); simpl; lia. }
    etrans; apply Hlen.
Qed.

Lemma guard_throw_state event always d :
  (preventScrollBugsIfNeeded event always d).1 = TypeError →
  preventScrollBugsIfNeeded event always d = (TypeError, d).
Proof.
  destruct (guard_ends event always d) as [(t & k & e & Ht & Hn)|[->| ->]];
    [|done..].
  rewrite (guard_at_marked _ always _ _ _ _ Ht Hn).
  step2_paths e event; done.
Qed.

Lemma guard_appends_pair event always d g d1 :
  listeners_known d →
  preventScrollBugsIfNeeded event always d = (Normal g, d1) →
  bodyListeners d1 =
    (bodyListeners d
     ++ [moveListener (functionsCreated d) g;
         endListener (functionsCreated d) g])%list.
Proof.
  intros Hknown Hg. destruct (guard_listeners _ _ _ _ _ Hg) as [_ ->].
  assert (∀ l, fnId (l_callback l) = functionsCreated d →
               ∀ x, x ∈ bodyListeners d → same_listener l x = false) as Hold.
  { intros l Hl x Hx. apply same_listener_other_id.
    specialize (Hknown x Hx). lia. }
  rewrite (add_listener_new (moveListener _ g)) by (by apply Hold).
  rewrite add_listener_new; [by rewrite <- app_assoc|].
  intros x [Hx| ->%list_elem_of_singleton]%elem_of_app; [by apply Hold|done].
Qed.


(** ** Every schedule of guard calls and listener runs *)

Lemma invoke_state l event d :
  (invoke l event d).2 =
    (call (l_callback l)
       (if defaultPassive (l_type l) then set_inPassiveListener true event
        else event) d).2.
Proof. unfold invoke. by destruct (call _ _ d) as [[ev|] d']. Qed.

(** A removal that names its listener without the capture flag, or names a
    touchmove listener, takes no touchend listener registered with capture
    off the list. *)
Lemma captured_survive_removal key ls :
  bool_decide (l_type key = touchend) && l_capture key = false →
  List.filter (λ l, bool_decide (l_type l = touchend) && l_capture l)
    (remove_listener key ls)
  = List.filter (λ l, bool_decide (l_type l = touchend) && l_capture l) ls.
Proof.
  intros Hkey. induction ls as [|x ls IH]; simpl; [done|].
  destruct (same_listener key x) eqn:Hsame; simpl; [|by rewrite IH].
  unfold same_listener in Hsame.
  apply andb_true_iff in Hsame as [[Hty _]%andb_true_iff Hcap].
  apply bool_decide_eq_true in Hty, Hcap.
  by rewrite <- Hty, <- Hcap, Hkey.
Qed.

(** One step keeps [listeners_known] and appends to the captured touchend
    listeners exactly when a call of the guard completed. *)
Lemma act_captured a d :
  listeners_known d →
  listeners_known (act a d).2 ∧
  ∃ news, captureTouchEnds (act a d).2 = (captureTouchEnds d ++ news)%list ∧
          length news = (if (act a d).1 then 1 else 0)%nat.
Proof.
  intros Hknown. destruct a as [event always|i event|els focus]; simpl.
  - destruct (preventScrollBugsIfNeeded event always d) as [[g|] d1] eqn:Hg.
    + split; [by eapply guard_keeps_listeners_known|]. simpl.
      exists [endListener (functionsCreated d) g]. split; [|done].
      unfold captureTouchEnds.
      rewrite (guard_appends_pair _ _ _ _ _ Hknown Hg), List.filter_app.
      done.
    + assert (d1 = d) as ->.
      { pose proof (guard_throw_state event always d) as Hs.
        rewrite Hg in Hs. by injection (Hs eq_refl). }
      split; [done|]. exists []. by rewrite app_nil_r.
  - destruct (bodyListeners d !! i) as [l|]; simpl;
      [|split; [done|]; exists []; by rewrite app_nil_r].
    rewrite invoke_state. unfold call.
    destruct (fnName (l_callback l)).
    + destruct (onTouchMove_keeps (fnEnv (l_callback l))
                  (if defaultPassive (l_type l)
                   then set_inPassiveListener true event else event) d)
        as (_ & Hl & Hf & _).
      split.
      * intros x. rewrite Hl, Hf. by apply Hknown.
      * exists []. unfold captureTouchEnds. by rewrite Hl, app_nil_r.
    + rewrite (bind_normal _ _ _ _ _ (onTouchEnd_run _ _ d)). simpl.
      split.
      * intros x Hx%remove_listener_subset%remove_listener_subset.
        by apply Hknown.
      * exists []. unfold captureTouchEnds. simpl.
        by rewrite !captured_survive_removal, app_nil_r.
  - split; [done|]. exists []. by rewrite app_nil_r.
Qed.

(** X13. Whatever the browser does on a body whose listeners all stem from
    earlier invocations (calls of the guard, runs of listeners that are on
    the body, on any events and in any order, and other changes of the
    page), no touchend listener registered with capture ever leaves the
    body, and each completed call of the guard puts one more there: after
    any schedule the captured touchend listeners are the ones from before
    followed by as many new ones as calls of the guard completed. *)
Theorem captured_touchend_listeners_only_accumulate
    (acts : list Action) (d : Document) :
  listeners_known d →
  listeners_known (perform acts d).2 ∧
  ∃ news,
    captureTouchEnds (perform acts d).2 = (captureTouchEnds d ++ news)%list ∧
    length news = (perform acts d).1.
Proof.
  revert d. induction acts as [|a rest IH]; intros d Hknown; simpl.
  - split; [done|]. exists []. by rewrite app_nil_r.
  - destruct (act_captured a d Hknown) as (Hknown1 & news1 & Hc1 & Hn1).
    destruct (act a d) as [completed d1]. simpl in *.
    destruct (IH d1 Hknown1) as (Hknown' & news & Hc & Hn).
    destruct (perform rest d1) as [n d']. simpl in *.
    split; [done|]. exists (news1 ++ news)%list.
    split; [by rewrite Hc, Hc1, <- app_assoc|].
    rewrite length_app, Hn1, Hn. by destruct completed.
Qed.

Lemma captured_touchend_listeners_only_accumulate_witness :
  let acts :=
    [ Touchstart (Sample.touchAt Sample.item [40]) false;
      RunListener 0 (Sample.touchAt Sample.item [55]);
      RunListener 1 (Sample.touchAt Sample.item []);
      Touchstart (Sample.touchAt Sample.html [40]) false;
      PageChange (elements (Sample.page 120)) None;
      Touchstart (Sample.touchAt Sample.plain [10]) true;
      RunListener 0 (Sample.touchAt Sample.plain []) ] in
  listeners_known (perform acts (Sample.page 0)).2 ∧
  ∃ news,
    captureTouchEnds (perform acts (Sample.page 0)).2
    = (captureTouchEnds (Sample.page 0) ++ news)%list ∧
    length news = (perform acts (Sample.page 0)).1.
Proof.
  intros acts.
  apply (captured_touchend_listeners_only_accumulate acts (Sample.page 0)).
  intros l Hl. simpl in Hl. by apply elem_of_nil in Hl.
Defined.

(** The schedule of the witness: the first gesture is ended by its touchend
    listener; the second touch lands outside the body and its guard throws;
    after the third touchstart the stale touchend listener of the first
    gesture runs and removes nothing. Two calls of the guard completed, and
    three listeners are on the body. *)
Example stale_listener_schedule :
  let acts :=
    [ Touchstart (Sample.touchAt Sample.item [40]) false;
      RunListener 0 (Sample.touchAt Sample.item [55]);
      RunListener 1 (Sample.touchAt Sample.item []);
      Touchstart (Sample.touchAt Sample.html [40]) false;
      PageChange (elements (Sample.page 120)) None;
      Touchstart (Sample.touchAt Sample.plain [10]) true;
      RunListener 0 (Sample.touchAt Sample.plain []) ] in
  (perform acts (Sample.page 0)).1 = 2%nat ∧
  length (captureTouchEnds (perform acts (Sample.page 0)).2) = 2%nat ∧
  length (bodyListeners (perform acts (Sample.page 0)).2) = 3%nat.
Proof. repeat split; vm_compute; reflexivity. Qed.

(** ** The touchmove listener as the browser runs it *)

(** The gesture's touchmove listener where the handler suppresses: the
    browser's run stops the propagation and invokes the dismisser but leaves
    the canceled flag as it was, because the listener is passive; the same
    handler outside a passive listener sets the flag on a cancelable
    event. *)
Lemma invoke_suppressing id g move d :
  onTouchMove g (set_inPassiveListener true move) d
    = (Normal (stopPropagation
                 (preventDefault (set_inPassiveListener true move))),
       (hideKeyboradIfNeeded d).2) →
  defaultPrevented (invoke (moveListener id g) move d).1
    = defaultPrevented move ∧
  propagationStopped (invoke (moveListener id g) move d).1 = true ∧
  (invoke (moveListener id g) move d).2 = (hideKeyboradIfNeeded d).2.
Proof.
  intros Hrun. unfold invoke, call. simpl. rewrite Hrun.
  unfold preventDefault. simpl. by rewrite andb_false_r.
Qed.

Lemma invoke_idle id g move d :
  onTouchMove g (set_inPassiveListener true move) d
    = (Normal (set_inPassiveListener true move), d) →
  defaultPrevented (invoke (moveListener id g) move d).1
    = defaultPrevented move ∧
  propagationStopped (invoke (moveListener id g) move d).1
    = propagationStopped move ∧
  (invoke (moveListener id g) move d).2 = d.
Proof. intros Hrun. unfold invoke, call. simpl. by rewrite Hrun. Qed.

Lemma preventDefault_cancels move :
  cancelable move = true → inPassiveListener move = false →
  defaultPrevented (stopPropagation (preventDefault move)) = true.
Proof. intros Hc Hp. unfold preventDefault. by rewrite Hc, Hp. Qed.

(** C1. In a gesture whose nearest marked ancestor [e] has vertical scroll
    and was at offset 0 at touchstart, the guard records the first touch's Y
    and marks the gesture as started from the top. When the browser then
    runs the gesture's touchmove listener on a touchmove whose first touch
    point has a greater Y, the propagation is stopped and the keyboard
    dismisser is invoked, but the default action is not cancelled: the
    listener was registered on the body without [passive: false], so it is
    passive and its call of [preventDefault()] leaves the canceled flag as
    it was. The handler does make the call: run outside a passive listener
    on a cancelable event it sets the flag. A touchmove whose first touch
    point has a Y less than or equal to the recorded one changes neither
    the event nor the state. *)
Theorem pull_down_is_stopped_but_not_cancelled
    (event : TouchEvent) (always : bool) (d : Document)
    (t : node) (k : nat) (e : Element) (first : Touch) (rest : list Touch) :
  target event = Some t →
  nearest_marked d t k e →
  scrollHeight e > clientHeight e →
  scrollTop e = 0 →
  touches event = first :: rest →
  ∃ g d1,
    preventScrollBugsIfNeeded event always d = (Normal g, d1) ∧
    scrollStartedFromTop g = true ∧ startY g = clientY first ∧
    ∀ (move : TouchEvent) (p : Touch) (ps : list Touch) (d2 : Document),
      touches move = p :: ps →
      let r := invoke (moveListener (functionsCreated d) g) move d2 in
      (clientY p > clientY first →
       defaultPrevented r.1 = defaultPrevented move ∧
       propagationStopped r.1 = true ∧
       r.2 = (hideKeyboradIfNeeded d2).2 ∧
       (cancelable move = true → inPassiveListener move = false →
        ∃ move', onTouchMove g move d2
                   = (Normal move', (hideKeyboradIfNeeded d2).2) ∧
                 defaultPrevented move' = true)) ∧
      ((clientY p ≤ clientY first)%Z →
       defaultPrevented r.1 = defaultPrevented move ∧
       propagationStopped r.1 = propagationStopped move ∧
       r.2 = d2).
Proof.
  intros Ht Hn Hv H0 Htouch.
  rewrite (guard_at_marked _ always _ _ _ _ Ht Hn).
  rewrite (bool_decide_eq_true_2 _ Hv), (bool_decide_eq_true_2 _ H0), Htouch.
  eexists _, _. split; [done|]. split; [done|]. split; [done|].
  intros move p ps d2 Hm r. subst r. split.
  - intros Hy.
    assert (∀ m, touches m = p :: ps →
      onTouchMove
        {| startY := clientY first; scrollStartedFromTop := true;
           hasVerticalScroll := true;
           hasHorizontalScroll := bool_decide (scrollWidth e > clientWidth e);
           alwaysPreventPullToRefresh := always |} m d2
      = (Normal (stopPropagation (preventDefault m)),
         (hideKeyboradIfNeeded d2).2)) as Hrun.
    { intros m Hmt. rewrite onTouchMove_run. simpl. rewrite Hmt.
      by rewrite bool_decide_eq_true_2. }
    destruct (invoke_suppressing (functionsCreated d) _ move d2
                (Hrun (set_inPassiveListener true move) Hm))
      as (Hd & Hp & Hs).
    split; [done|]. split; [done|]. split; [done|].
    intros Hc Hpas. eexists. split; [by apply Hrun|].
    by apply preventDefault_cancels.
  - intros Hy. apply invoke_idle.
    rewrite onTouchMove_run. simpl. rewrite Hm.
    by rewrite bool_decide_eq_false_2 by lia.
Qed.

Lemma pull_down_is_stopped_but_not_cancelled_witness :
  let start := Sample.touchAt Sample.item [40] in
  let move := Sample.touchAt Sample.item [55] in
  ∃ g d1,
    preventScrollBugsIfNeeded start false (Sample.page 0) = (Normal g, d1) ∧
    cancelable move = true ∧
    defaultPrevented (invoke (moveListener 0 g) move d1).1 = false ∧
    propagationStopped (invoke (moveListener 0 g) move d1).1 = true.
Proof.
  intros start move.
  destruct (pull_down_is_stopped_but_not_cancelled
              start false (Sample.page 0) Sample.item 1
              (Sample.div ["scrollable"] 0 0 500 200 400 400)
              {| clientY := 40 |} []
              eq_refl ltac:(solve_nearest) ltac:(simpl; lia) eq_refl eq_refl)
    as (g & d1 & Hg & _ & _ & Hmoves).
  exists g, d1. split; [exact Hg|]. split; [reflexivity|].
  destruct (Hmoves move {| clientY := 55 |} [] d1 eq_refl) as [Hdown _].
  destruct Hdown as (Hd & Hp & _); [simpl; lia|].
  split; [exact Hd|exact Hp].
Defined.

(** C2. In a gesture started with [alwaysPreventPullToRefresh = true] and
    with both scroll flags false, when the browser runs the gesture's
    touchmove listener the propagation is stopped and the dismisser is
    invoked, but the default action is not cancelled: the listener is
    passive, so the call of [preventDefault()] leaves the canceled flag as
    it was, while the same handler outside a passive listener sets it on a
    cancelable event. With either scroll flag true the always-prevent
    branch does nothing. *)
Theorem always_prevent_is_stopped_but_not_cancelled
    (event : TouchEvent) (d : Document) (g : Gesture) (d1 : Document) :
  preventScrollBugsIfNeeded event true d = (Normal g, d1) →
  ∀ (move : TouchEvent) (d2 : Document),
    let r := invoke (moveListener (functionsCreated d) g) move d2 in
    (hasVerticalScroll g = false ∧ hasHorizontalScroll g = false →
     defaultPrevented r.1 = defaultPrevented move ∧
     propagationStopped r.1 = true ∧
     r.2 = (hideKeyboradIfNeeded d2).2 ∧
     (cancelable move = true → inPassiveListener move = false →
      ∃ move', onTouchMove g move d2
                 = (Normal move', (hideKeyboradIfNeeded d2).2) ∧
               defaultPrevented move' = true)) ∧
    (hasVerticalScroll g = true ∨ hasHorizontalScroll g = true →
     untouched (alwaysPreventBranch g move) move d2).
Proof.
  intros Hg move d2 r. subst r. apply guard_always in Hg. split.
  - intros [Hv Hh].
    assert (∀ m, onTouchMove g m d2
                 = (Normal (stopPropagation (preventDefault m)),
                    (hideKeyboradIfNeeded d2).2)) as Hrun.
    { intros m. rewrite onTouchMove_run. by rewrite Hg, Hv, Hh. }
    destruct (invoke_suppressing (functionsCreated d) g move d2
                (Hrun (set_inPassiveListener true move)))
      as (Hd & Hp & Hs).
    split; [done|]. split; [done|]. split; [done|].
    intros Hc Hpas. eexists. split; [by apply Hrun|].
    by apply preventDefault_cancels.
  - intros Hor. unfold untouched. rewrite alwaysPreventBranch_run, Hg.
    destruct Hor as [-> | ->]; [done|]. by destruct (hasVerticalScroll g).
Qed.

Lemma always_prevent_is_stopped_but_not_cancelled_witness :
  let g := {| startY := 0; scrollStartedFromTop := false;
              hasVerticalScroll := false; hasHorizontalScroll := false;
              alwaysPreventPullToRefresh := true |} in
  let move := Sample.touchAt Sample.plain [90] in
  cancelable move = true ∧
  defaultPrevented (invoke (moveListener 0 g) move (Sample.page 0)).1 = false ∧
  propagationStopped (invoke (moveListener 0 g) move (Sample.page 0)).1 = true.
Proof.
  intros g move. split; [reflexivity|].
  destruct (always_prevent_is_stopped_but_not_cancelled
              (Sample.touchAt Sample.plain [40]) (Sample.page 0) g
              (preventScrollBugsIfNeeded
                 (Sample.touchAt Sample.plain [40]) true (Sample.page 0)).2
              ltac:(vm_compute; reflexivity) move (Sample.page 0))
    as [Hboth _].
  destruct Hboth as (Hd & Hp & _); [split; reflexivity|].
  split; [exact Hd|exact Hp].
Defined.

(** ** The end of the chain *)

Lemma findScrollable_hits t d k :
  hits_non_element d t k → findScrollable t d = (TypeError, d).
Proof.
  intros Hh.
  destruct (findScrollable_ends t d)
    as [(k' & e & Hn & _)|[(k' & Hb & _)|[(Hr & _)|(_ & _ & ->)]]];
    [exfalso|exfalso|exfalso|done];
    eauto using marked_excludes_non_element, body_excludes_non_element,
      root_excludes_non_element.
Qed.

(** C9. The first-touch reads are unguarded, as the specification says: a
    touchstart without touch points throws when the nearest marked ancestor
    has vertical scroll and is at offset 0, and once a gesture has started
    from the top a touchmove without touch points throws. But touch points
    do not make the guard safe: when the walk from the target reaches a node
    without a class list before a marked element or the body (the document
    node, above a target that is not inside the body), the guard throws
    whatever touch points the event carries, although the loop tests for the
    end of the chain. Apart from that case, a touchstart with a touch point
    completes, and so does the handler on every touchmove with a touch
    point. *)
Theorem guard_throws_at_the_document_node
    (event : TouchEvent) (always : bool) (d : Document) :
  (∀ t k, target event = Some t → hits_non_element d t k →
     preventScrollBugsIfNeeded event always d = (TypeError, d)) ∧
  (touches event ≠ [] →
   (∀ t k, target event = Some t → ¬ hits_non_element d t k) →
   ∃ g d1,
     preventScrollBugsIfNeeded event always d = (Normal g, d1) ∧
     ∀ move d2, touches move ≠ [] →
       ∃ move' d3, onTouchMove g move d2 = (Normal move', d3)) ∧
  (∀ t k e,
     touches event = [] →
     target event = Some t → nearest_marked d t k e →
     scrollHeight e > clientHeight e → scrollTop e = 0 →
     preventScrollBugsIfNeeded event always d = (TypeError, d)) ∧
  (∀ g d1,
     preventScrollBugsIfNeeded event always d = (Normal g, d1) →
     scrollStartedFromTop g = true →
     ∀ move d2, touches move = [] →
       onTouchMove g move d2 = (TypeError, d2)).
Proof.
  split; [|split; [|split]].
  - intros t k Ht Hh. apply guard_throw with d. rewrite Ht. simpl.
    by apply findScrollable_hits with k.
  - intros Hsome Hnohit.
    assert (∀ g move d2, touches move ≠ [] →
              ∃ move' d3, onTouchMove g move d2 = (Normal move', d3)) as Hmove.
    { intros g move d2 Hm. rewrite onTouchMove_run.
      destruct (hasVerticalScroll g && scrollStartedFromTop g).
      - destruct (touches move) as [|p ps]; [done|].
        case_bool_decide; by eexists _, _.
      - destruct (_ && _ && _); by eexists _, _. }
    destruct (locate_ends event d)
      as [(t & k & e & Ht & Hn & _)|[(_ & t' & Hl)|(t & k & Ht & Hh & _)]].
    + rewrite (guard_at_marked _ always _ _ _ _ Ht Hn).
      step2_paths e event; try congruence; eexists _, _; (split; [done|]);
        intros move d2 Hm; by apply Hmove.
    + rewrite (guard_unmarked _ always _ _ Hl).
      eexists _, _. split; [done|]. intros move d2 Hm. by apply Hmove.
    + by destruct (Hnohit t k Ht).
  - intros t k e Hempty Ht Hn Hv H0.
    rewrite (guard_at_marked _ always _ _ _ _ Ht Hn).
    by rewrite (bool_decide_eq_true_2 _ Hv), (bool_decide_eq_true_2 _ H0),
      Hempty.
  - intros g d1 Hg Hs move d2 Hempty.
    rewrite onTouchMove_top by eauto using guard_top_is_vertical.
    by rewrite Hempty.
Qed.

Lemma guard_throws_at_the_document_node_witness :
  touches (Sample.touchAt Sample.html [40]) ≠ [] ∧
  preventScrollBugsIfNeeded
    (Sample.touchAt Sample.html [40]) false (Sample.page 0)
  = (TypeError, Sample.page 0).
Proof.
  split; [discriminate|].
  apply (proj1 (guard_throws_at_the_document_node
                  (Sample.touchAt Sample.html [40]) false (Sample.page 0))
           Sample.html 1%nat eq_refl).
  split; [simpl; lia|]. split.
  - intros j Hj. assert (j = 0%nat) as -> by lia.
    split; [discriminate|]. eexists. split; [reflexivity|]. by_evaluation.
  - split; [discriminate|reflexivity].
Defined.
